(** * surfalize.batch: deferred calls, the per-file task and the batch controller

    A shallow embedding of [src/surfalize/batch.py].  Python objects that the
    module only passes around are values of [pyval]; exceptions are values of
    [exn] carried by the [result] type; a Python [dict] is an association list
    that keeps insertion order; the [Surface] class, [pandas] and the file
    system are collaborators described by an interface. *)

From Stdlib Require Import List String Ascii ZArith Bool Arith Lia Permutation.
Import ListNotations.
Local Open Scope string_scope.
Local Open Scope list_scope.

Set Implicit Arguments.
Local Set Warnings "-register-all".

(* ------------------------------------------------------------------ *)
(** ** Python values *)

(** Values that travel through the batch module.  The module never computes
    with them: it stores them in argument tuples, keyword dictionaries and
    result records.  A float is kept as mantissa and binary exponent. *)
Inductive pyval : Type :=
| PNone
| PBool (b : bool)
| PInt (z : Z)
| PFloat (m e : Z)
| PStr (s : string)
| PTuple (items : list pyval).

(** Modelled from the spec: [is_list_like] of [surfalize.utils] is not part of
    the sources at hand.  The spec separates "a single scalar" from "an
    ordered collection" of values; the collections of the model are the
    tuples. *)
Definition is_list_like (v : pyval) : bool :=
  match v with
  | PTuple _ => true
  | _ => false
  end.

(** [len(result)] for a value that passed [is_list_like]. *)
Definition py_len (v : pyval) : nat :=
  match v with
  | PTuple items => List.length items
  | _ => 0
  end.

(** The items [zip] iterates over. *)
Definition py_items (v : pyval) : list pyval :=
  match v with
  | PTuple items => items
  | _ => []
  end.

Fixpoint pyval_eqb (a b : pyval) {struct a} : bool :=
  match a, b with
  | PNone, PNone => true
  | PBool x, PBool y => Bool.eqb x y
  | PInt x, PInt y => Z.eqb x y
  | PFloat m e, PFloat m' e' => Z.eqb m m' && Z.eqb e e'
  | PStr x, PStr y => String.eqb x y
  | PTuple xs, PTuple ys =>
      (fix items_eqb (l1 l2 : list pyval) {struct l1} : bool :=
         match l1, l2 with
         | [], [] => true
         | x :: l1', y :: l2' => pyval_eqb x y && items_eqb l1' l2'
         | _, _ => false
         end) xs ys
  | _, _ => false
  end.

(** Induction on values that reaches the items of a tuple. *)
Fixpoint pyval_rect' (P : pyval -> Prop)
    (HNone : P PNone) (HBool : forall b, P (PBool b))
    (HInt : forall z, P (PInt z)) (HFloat : forall m e, P (PFloat m e))
    (HStr : forall s, P (PStr s))
    (HTuple : forall items, Forall P items -> P (PTuple items))
    (v : pyval) {struct v} : P v :=
  match v with
  | PNone => HNone
  | PBool b => HBool b
  | PInt z => HInt z
  | PFloat m e => HFloat m e
  | PStr s => HStr s
  | PTuple items =>
      HTuple items
        ((fix all (l : list pyval) : Forall P l :=
            match l with
            | [] => Forall_nil P
            | x :: l' =>
                Forall_cons x
                  (pyval_rect' HNone HBool HInt HFloat HStr HTuple x) (all l')
            end) items)
  end.

(* ------------------------------------------------------------------ *)
(** ** Exceptions and results *)

(** [BatchError] is the exception class of the module; [AttributeError],
    [ValueError] and [KeyError] are the built-in classes the module raises or
    lets the interpreter raise on its behalf.  An exception that is raised
    inside a collaborator (a Surface method, the loader, the spreadsheet
    reader) passes through the module untouched: it is [Raised cls msg], and
    is kept apart from the exceptions of the module's own statements. *)
Inductive exn : Type :=
| BatchError (msg : string)
| AttributeError (msg : string)
| ValueError (msg : string)
| KeyError (msg : string)
| Raised (cls msg : string).

Inductive result (A : Type) : Type :=
| Ok (a : A)
| Err (e : exn).
Arguments Ok {A} a.
Arguments Err {A} e.

Definition bind {A B : Type} (m : result A) (k : A -> result B) : result B :=
  match m with
  | Ok a => k a
  | Err e => Err e
  end.

Declare Scope result_scope.
Delimit Scope result_scope with result.
Notation "x <- m ;; k" := (bind m (fun x => k))
  (at level 61, m at next level, right associativity) : result_scope.
Notation "' p <- m ;; k" := (bind m (fun p => k))
  (at level 61, p pattern, m at next level, right associativity) : result_scope.
Local Open Scope result_scope.

(** The message of the interpreter for a failed attribute lookup, which
    [Batch.__getattr__] rebuilds with an f-string. *)
Definition no_attribute (cls attr : string) : string :=
  "'" ++ cls ++ "' object has no attribute '" ++ attr ++ "'".

(* ------------------------------------------------------------------ *)
(** ** Dictionaries *)

(** A Python [dict]: keys are unique and kept in insertion order; assigning
    to a key that is present replaces the value in place, assigning to a new
    key appends an entry. *)
Module Dict.

Definition t : Type := list (string * pyval).

Definition empty : t := [].

Fixpoint get (k : string) (d : t) : option pyval :=
  match d with
  | [] => None
  | (k', v) :: d' => if String.eqb k k' then Some v else get k d'
  end.

(** [d[k] = v] *)
Fixpoint set (k : string) (v : pyval) (d : t) : t :=
  match d with
  | [] => [(k, v)]
  | (k', v') :: d' =>
      if String.eqb k k' then (k', v) :: d' else (k', v') :: set k v d'
  end.

Definition keys (d : t) : list string := map fst d.

(** [d.update(other)]: the entries of [other] are assigned in its order. *)
Definition update (d other : t) : t :=
  fold_left (fun acc kv => set (fst kv) (snd kv) acc) other d.

(** A dict display or comprehension: the pairs are assigned from left to
    right to an empty dict. *)
Definition of_pairs (kvs : list (string * pyval)) : t :=
  fold_left (fun acc kv => set (fst kv) (snd kv) acc) kvs empty.

(** The value the rightmost pair with key [k] carries. *)
Definition last_binding (k : string) (kvs : list (string * pyval))
  : option pyval :=
  get k (rev kvs).

End Dict.

(** Arguments of a deferred call. *)
Definition pyargs : Type := list pyval.
Definition pykwargs : Type := Dict.t.

(* ------------------------------------------------------------------ *)
(** ** pathlib *)

(** A [pathlib.Path]: whether it is anchored at the root, and its
    components below the anchor. *)
Record Path : Type := mkPath {
  path_absolute : bool;
  path_parts : list string
}.

(** Splits at ["/"]; [cur] is the component read so far, reversed. *)
Fixpoint split_slash (cur : list ascii) (s : string) : list string :=
  match s with
  | EmptyString => [string_of_list_ascii (rev cur)]
  | String c s' =>
      if Ascii.eqb c "/"%char
      then string_of_list_ascii (rev cur) :: split_slash [] s'
      else split_slash (c :: cur) s'
  end.

Definition starts_with_slash (s : string) : bool :=
  match s with
  | String c _ => Ascii.eqb c "/"%char
  | EmptyString => false
  end.

(** [Path(file)] for a POSIX path string: empty components and ["."] are
    dropped. *)
Definition Path_of_string (s : string) : Path :=
  mkPath (starts_with_slash s)
         (filter (fun c => negb (String.eqb c "" || String.eqb c "."))
                 (split_slash [] s)).

(** [path.name]: the final component, the empty string when there is none. *)
Definition Path_name (p : Path) : string := last (path_parts p) "".

(* ------------------------------------------------------------------ *)
(** ** The Surface collaborator *)

(** What a call into a collaborator does: it returns, or it raises an
    exception of its own. *)
Inductive outcome (A : Type) : Type :=
| Returns (a : A)
| Raises (cls msg : string).
Arguments Returns {A} a.
Arguments Raises {A} cls msg.

Definition of_outcome {A : Type} (o : outcome A) : result A :=
  match o with
  | Returns a => Ok a
  | Raises cls msg => Err (Raised cls msg)
  end.

(** A method of the Surface class.  A call may change the surface it is
    bound to (the operations are registered with [inplace=True]), so it
    maps the state of the surface before the call to the returned value and
    the state after it.  [return_labels] is the attribute the decorator
    [register_returnlabels] attaches; it is absent on other methods. *)
Record method (S : Type) : Type := mkMethod {
  call : pyargs -> pykwargs -> S -> outcome (pyval * S);
  return_labels : option (list string)
}.

(** The interface of [surfalize.Surface] the batch module relies on:
    [Surface.load], attribute lookup by name, and the tuple
    [Surface.AVAILABLE_PARAMETERS]. *)
Class SurfaceClass : Type := {
  Surface : Type;
  Surface_load : Path -> outcome Surface;
  Surface_method : string -> option (method Surface);
  AVAILABLE_PARAMETERS : list string
}.

(** [getattr(surface, identifier)] *)
Definition getattr_surface `{SurfaceClass} (identifier : string)
  : result (method Surface) :=
  match Surface_method identifier with
  | Some m => Ok m
  | None => Err (AttributeError (no_attribute "Surface" identifier))
  end.

(* ------------------------------------------------------------------ *)
(** ** Deferred calls *)

(** [class Operation]: [args] and [kwargs] default to the empty tuple and
    the empty dict. *)
Record Operation : Type := mkOperation {
  op_identifier : string;
  op_args : pyargs;
  op_kwargs : pykwargs
}.

(** [class Parameter] *)
Record PyParameter : Type := mkParameter {
  identifier : string;
  args : pyargs;
  kwargs : pykwargs
}.

(** [Parameter(identifier)] *)
Definition default_parameter (ident : string) : PyParameter :=
  mkParameter ident [] Dict.empty.

(** The key f'{identifier}_{label}'. *)
Definition label_key (ident label : string) : string :=
  ident ++ "_" ++ label.

Section Calls.
Context `{SC : SurfaceClass}.

(** [Operation.execute_on]: the value the method returns is dropped. *)
Definition execute_on (o : Operation) (surface : Surface) : result Surface :=
  method <- getattr_surface (op_identifier o) ;;
  '(_, surface') <- of_outcome (call method (op_args o) (op_kwargs o) surface) ;;
  Ok surface'.

(** [Parameter.calculate_from] *)
Definition calculate_from (p : PyParameter) (surface : Surface)
  : result (Dict.t * Surface) :=
  method <- getattr_surface (identifier p) ;;
  '(result, surface') <- of_outcome (call method (args p) (kwargs p) surface) ;;
  if is_list_like result then
    labels <- match return_labels method with
              | Some labels => Ok labels
              | None =>
                  Err (BatchError ("No return labels registered for Surface."
                                     ++ identifier p ++ "."))
              end ;;
    if negb (py_len result =? List.length labels)%nat then
      Err (BatchError
             "Number of registered return labels do not match number of returned values.")
    else
      Ok (Dict.of_pairs
            (map (fun vl => (label_key (identifier p) (snd vl), fst vl))
                 (combine (py_items result) labels)),
          surface')
  else
    Ok ([(identifier p, result)], surface').

(** The loop [for operation in operations: operation.execute_on(surface)]. *)
Fixpoint execute_all (operations : list Operation) (surface : Surface)
  : result Surface :=
  match operations with
  | [] => Ok surface
  | operation :: rest =>
      surface' <- execute_on operation surface ;;
      execute_all rest surface'
  end.

(** The loop over the parameters: each result is merged into [results]
    with [dict.update]. *)
Fixpoint calculate_all (parameters : list PyParameter) (surface : Surface)
                       (results : Dict.t) : result (Dict.t * Surface) :=
  match parameters with
  | [] => Ok (results, surface)
  | parameter :: rest =>
      '(result, surface') <- calculate_from parameter surface ;;
      calculate_all rest surface' (Dict.update results result)
  end.

End Calls.

(* ------------------------------------------------------------------ *)
(** ** File input and output *)

(** The accesses to files, in the order they happen. *)
Inductive event : Type :=
| EvLoad (p : Path)
| EvReadExcel (src : string)
| EvWriteExcel (dst : string).

Definition trace : Type := list event.

(** A computation that may touch files: from the trace so far to its
    result and the extended trace. *)
Definition IO (A : Type) : Type := trace -> result A * trace.

Definition io_ret {A : Type} (a : A) : IO A := fun t => (Ok a, t).

Definition io_raise {A : Type} (e : exn) : IO A := fun t => (Err e, t).

Definition io_bind {A B : Type} (m : IO A) (k : A -> IO B) : IO B :=
  fun t =>
    match m t with
    | (Ok a, t') => k a t'
    | (Err e, t') => (Err e, t')
    end.

Definition io_lift {A : Type} (r : result A) : IO A := fun t => (r, t).

(** An access [ev] whose outcome is [o]. *)
Definition io_access {A : Type} (ev : event) (o : outcome A) : IO A :=
  fun t => (of_outcome o, t ++ [ev]).

Declare Scope io_scope.
Delimit Scope io_scope with io.
Notation "x <- m ;; k" := (io_bind m (fun x => k))
  (at level 61, m at next level, right associativity) : io_scope.
Notation "' p <- m ;; k" := (io_bind m (fun p => k))
  (at level 61, p pattern, m at next level, right associativity) : io_scope.

Section Task.
Context `{SC : SurfaceClass}.

(** [_task]: load, replay the operations, evaluate the parameters. *)
Definition _task (filepath : Path) (operations : list Operation)
                 (parameters : list PyParameter) : IO Dict.t :=
  (surface <- io_access (EvLoad filepath) (Surface_load filepath) ;;
   surface <- io_lift (execute_all operations surface) ;;
   let results := [("file", PStr (Path_name filepath))] in
   '(results, _) <- io_lift (calculate_all parameters surface results) ;;
   io_ret results)%io.

End Task.

(* ------------------------------------------------------------------ *)
(** ** pandas *)

(** A cell of a table; [None] is the missing value (NaN). *)
Definition cell : Type := option pyval.

Definition cell_eqb (a b : cell) : bool :=
  match a, b with
  | None, None => true
  | Some x, Some y => pyval_eqb x y
  | _, _ => false
  end.

(** A [pandas.DataFrame]: the column labels and, per row, one cell for each
    column. *)
Record DataFrame : Type := mkDataFrame {
  columns : list string;
  rows : list (list cell)
}.

Definition well_formed (df : DataFrame) : Prop :=
  forall row, In row (rows df) -> List.length row = List.length (columns df).

Definition mem (c : string) (cols : list string) : bool :=
  existsb (String.eqb c) cols.

Fixpoint index_of (c : string) (cols : list string) : option nat :=
  match cols with
  | [] => None
  | c' :: cols' =>
      if String.eqb c c' then Some 0%nat
      else option_map S (index_of c cols')
  end.

(** [df[c]] at one row. *)
Definition cell_at (cols : list string) (row : list cell) (c : string) : cell :=
  match index_of c cols with
  | Some i => nth i row None
  | None => None
  end.

(** The values of column [c], one per row. *)
Definition column_values (df : DataFrame) (c : string) : list cell :=
  map (fun row => cell_at (columns df) row c) (rows df).

(** The keys of [d] that are not columns yet, appended in their order. *)
Definition add_columns (cols : list string) (d : Dict.t) : list string :=
  fold_left (fun acc k => if mem k acc then acc else acc ++ [k])
            (Dict.keys d) cols.

(** [pd.DataFrame(results)] for a list of dicts: the columns are the keys in
    the order they first appear; a key a record lacks gives a missing cell. *)
Definition DataFrame_of_records (results : list Dict.t) : DataFrame :=
  let cols := fold_left add_columns results [] in
  mkDataFrame cols (map (fun d => map (fun c => Dict.get c d) cols) results).

Definition remove_at {A : Type} (i : nat) (l : list A) : list A :=
  firstn i l ++ skipn (S i) l.

(** The rows of an inner join: for each left row, in order, the right rows
    with an equal key, in order; the key cell is kept once. *)
Definition merge_rows (i j : nat) (lrows rrows : list (list cell))
  : list (list cell) :=
  flat_map
    (fun l =>
       map (fun r => l ++ remove_at j r)
           (List.filter (fun r => cell_eqb (nth i l None) (nth j r None)) rrows))
    lrows.

(** [pd.merge(left, right, on=on)].  No [how] is given, so the join is
    pandas' default, the inner join.  Columns other than the key that both
    tables have get the suffixes ["_x"] and ["_y"]; a table without the key
    column is a [KeyError]. *)
Definition merge (left right : DataFrame) (on : string) : result DataFrame :=
  match index_of on (columns left), index_of on (columns right) with
  | Some i, Some j =>
      let lcols :=
        map (fun c => if negb (String.eqb c on) && mem c (columns right)
                      then (c ++ "_x")%string else c)
            (columns left) in
      let rcols :=
        map (fun c => if mem c (columns left) then (c ++ "_y")%string else c)
            (remove_at j (columns right)) in
      Ok (mkDataFrame (lcols ++ rcols)
                      (merge_rows i j (rows left) (rows right)))
  | _, _ => Err (KeyError on)
  end.

(** What the module needs from its surroundings: [pd.read_excel],
    [DataFrame.to_excel], and the order in which [Pool.imap_unordered]
    hands back the tasks of a list of files. *)
Class Environment : Type := {
  read_excel : string -> outcome DataFrame;
  to_excel : DataFrame -> string -> outcome unit;
  imap_unordered : list Path -> list Path;
  imap_unordered_perm : forall l, Permutation (imap_unordered l) l
}.

(* ------------------------------------------------------------------ *)
(** ** The batch controller *)

Module Batch.

(** The instance attributes [__init__] sets. *)
Record t : Type := mk {
  _filepaths : list Path;
  _additional_data : option DataFrame;
  _operations : list Operation;
  _parameters : list PyParameter
}.

Definition no_file_column : string :=
  "File specified by 'additional_data' does not contain column named 'file'.".

Definition nothing_registered : string :=
  "No operations of parameters defined.".

(** The exception of [execute] for an empty registration. *)
Definition usage_error : exn := BatchError nothing_registered.

(** [Batch(filepaths, additional_data)] *)
Definition __init__ `{Environment}
    (filepaths : list string) (additional_data : option string) : IO t :=
  let paths := map Path_of_string filepaths in
  match additional_data with
  | None => io_ret (mk paths None [] [])
  | Some src =>
      (df <- io_access (EvReadExcel src) (read_excel src) ;;
       if negb (mem "file" (columns df))
       then io_raise (ValueError no_file_column)
       else io_ret (mk paths (Some df) [] []))%io
  end.

(** The loop [for filepath in ...: results.append(_task(filepath, ...))]. *)
Fixpoint run_tasks `{SurfaceClass} (filepaths : list Path)
    (operations : list Operation) (parameters : list PyParameter)
  : IO (list Dict.t) :=
  match filepaths with
  | [] => io_ret []
  | filepath :: rest =>
      (result <- _task filepath operations parameters ;;
       results <- run_tasks rest operations parameters ;;
       io_ret (result :: results))%io
  end.

(** [_disptach_tasks].  With [multiprocessing] the results are appended in
    the order the pool hands them back, which is [imap_unordered] of the
    file list: the tasks are run in that order, and the first exception
    ends the loop.  The progress bar is left out. *)
Definition _disptach_tasks `{SurfaceClass} `{Environment}
    (self : t) (multiprocessing : bool) : IO (list Dict.t) :=
  if multiprocessing
  then run_tasks (imap_unordered (_filepaths self))
                 (_operations self) (_parameters self)
  else run_tasks (_filepaths self) (_operations self) (_parameters self).

Definition _construct_dataframe (self : t) (results : list Dict.t)
  : result DataFrame :=
  let df := DataFrame_of_records results in
  match _additional_data self with
  | Some additional_data => merge additional_data df "file"
  | None => Ok df
  end.

Definition is_empty {A : Type} (l : list A) : bool :=
  match l with
  | [] => true
  | _ :: _ => false
  end.

Definition execute `{SurfaceClass} `{Environment}
    (self : t) (multiprocessing : bool) (saveto : option string)
  : IO DataFrame :=
  if is_empty (_parameters self) && is_empty (_operations self)
  then io_raise usage_error
  else
    (results <- _disptach_tasks self multiprocessing ;;
     df <- io_lift (_construct_dataframe self results) ;;
     match saveto with
     | Some dst =>
         _ <- io_access (EvWriteExcel dst) (to_excel df dst) ;;
         io_ret df
     | None => io_ret df
     end)%io.

(** A method that ends in [return self] is a function from the state of
    the controller before the call to its state after it, the value the
    caller chains the next call on. *)
Definition register_operation (operation : Operation) (self : t) : t :=
  mk (_filepaths self) (_additional_data self)
     (_operations self ++ [operation]) (_parameters self).

Definition register_parameter (parameter : PyParameter) (self : t) : t :=
  mk (_filepaths self) (_additional_data self)
     (_operations self) (_parameters self ++ [parameter]).

Definition inplace : string * pyval := ("inplace", PBool true).

Definition zero (self : t) : t :=
  register_operation (mkOperation "zero" [] [inplace]) self.

Definition center (self : t) : t :=
  register_operation (mkOperation "center" [] [inplace]) self.

(** [threshold] defaults to 0.5. *)
Definition threshold (threshold : pyval) (self : t) : t :=
  register_operation
    (mkOperation "threshold" [] [("threshold", threshold); inplace]) self.

(** [n] defaults to 3 and [method] to 'mean'. *)
Definition remove_outliers (n method : pyval) (self : t) : t :=
  register_operation
    (mkOperation "remove_outliers" [] [("n", n); ("method", method); inplace])
    self.

(** [method] defaults to 'nearest'. *)
Definition fill_nonmeasured (method : pyval) (self : t) : t :=
  register_operation
    (mkOperation "fill_nonmeasured" [] [("method", method); inplace]) self.

Definition level (self : t) : t :=
  register_operation (mkOperation "level" [] [inplace]) self.

(** [cutoff2] defaults to None. *)
Definition filter (filter_type cutoff cutoff2 : pyval) (self : t) : t :=
  register_operation
    (mkOperation "filter" [filter_type; cutoff] [("cutoff2", cutoff2); inplace])
    self.

Definition rotate (angle : pyval) (self : t) : t :=
  register_operation (mkOperation "rotate" [angle] [inplace]) self.

(** [axis] defaults to 'y'. *)
Definition align (axis : pyval) (self : t) : t :=
  register_operation (mkOperation "align" [] [inplace; ("axis", axis)]) self.

Definition zoom (factor : pyval) (self : t) : t :=
  register_operation (mkOperation "zoom" [factor] [inplace]) self.

(** What an attribute access on the controller yields: the value of an
    instance attribute, or the closure [parameter_dummy_method]. *)
Inductive attribute : Type :=
| AttrFilepaths (v : list Path)
| AttrAdditionalData (v : option DataFrame)
| AttrOperations (v : list Operation)
| AttrParameters (v : list PyParameter)
| AttrMethod (f : pyargs -> pykwargs -> t -> t).

(** [self.__dict__] *)
Definition __dict__ (self : t) (attr : string) : option attribute :=
  if String.eqb attr "_filepaths" then Some (AttrFilepaths (_filepaths self))
  else if String.eqb attr "_additional_data"
       then Some (AttrAdditionalData (_additional_data self))
  else if String.eqb attr "_operations"
       then Some (AttrOperations (_operations self))
  else if String.eqb attr "_parameters"
       then Some (AttrParameters (_parameters self))
  else None.

(** The closure [__getattr__] returns; [attr] is captured. *)
Definition parameter_dummy_method (attr : string)
    (args : pyargs) (kwargs : pykwargs) (self : t) : t :=
  register_parameter (mkParameter attr args kwargs) self.

(** [Batch.__getattr__].  The interpreter calls it when the ordinary
    lookup of [attr] on the controller has failed. *)
Definition __getattr__ `{SurfaceClass} (self : t) (attr : string)
  : result attribute :=
  match __dict__ self attr with
  | Some v => Ok v
  | None =>
      if negb (mem attr AVAILABLE_PARAMETERS)
      then Err (AttributeError (no_attribute "Batch" attr))
      else Ok (AttrMethod (parameter_dummy_method attr))
  end.

(** An entry of the list given to [roughness_parameters]: a string or a
    [Parameter]. *)
Inductive entry : Type :=
| EStr (s : string)
| EParameter (p : PyParameter).

(** The body of the loop of [roughness_parameters]. *)
Definition as_parameter (e : entry) : PyParameter :=
  match e with
  | EStr s => default_parameter s
  | EParameter p => p
  end.

Definition roughness_parameters `{SurfaceClass}
    (parameters : option (list entry)) (self : t) : t :=
  let parameters :=
    match parameters with
    | None => map EStr AVAILABLE_PARAMETERS
    | Some l => l
    end in
  fold_left (fun self parameter => register_parameter (as_parameter parameter) self)
            parameters self.

End Batch.

(* ------------------------------------------------------------------ *)
(** ** Descriptions of a run, used to state the properties *)

Section Runs.
Context `{SC : SurfaceClass}.

(** [states] are the states of the surface before, between and after the
    operations: operation [i] takes state [i] to state [i + 1]. *)
Definition replays (operations : list Operation) (states : list Surface)
  : Prop :=
  List.length states = S (List.length operations) /\
  forall i o s,
    nth_error operations i = Some o ->
    nth_error states i = Some s ->
    exists s', nth_error states (S i) = Some s' /\ execute_on o s = Ok s'.

(** Parameter [i] is evaluated on state [i], gives the mapping [outs i]
    and leaves state [i + 1]. *)
Definition evaluates (parameters : list PyParameter)
    (states : list Surface) (outs : list Dict.t) : Prop :=
  List.length states = S (List.length parameters) /\
  List.length outs = List.length parameters /\
  forall i p s,
    nth_error parameters i = Some p ->
    nth_error states i = Some s ->
    exists r s', nth_error outs i = Some r /\
                 nth_error states (S i) = Some s' /\
                 calculate_from p s = Ok (r, s').

(** No mapping after position [i] has the key [k]. *)
Definition not_produced_after (k : string) (i : nat) (outs : list Dict.t)
  : Prop :=
  forall j r, (i < j)%nat -> nth_error outs j = Some r -> Dict.get k r = None.

(** A successful run of the task on [filepath]: the surface is loaded,
    the operations take it through [ostates], the parameters are
    evaluated from the state the operations left and give the mappings
    [outs], which are merged, in order, into the record that starts with
    the filename. *)
Definition runs_task (filepath : Path) (operations : list Operation)
    (parameters : list PyParameter) (outs : list Dict.t) (record : Dict.t)
  : Prop :=
  exists loaded ostates final pstates,
    Surface_load filepath = Returns loaded /\
    nth_error ostates 0 = Some loaded /\
    replays operations ostates /\
    nth_error ostates (List.length operations) = Some final /\
    nth_error pstates 0 = Some final /\
    evaluates parameters pstates outs /\
    record = fold_left Dict.update outs [("file", PStr (Path_name filepath))].

End Runs.

(** A string without the path separator. *)
Definition no_separator (s : string) : Prop :=
  ~ In "/"%char (list_ascii_of_string s).

(* ------------------------------------------------------------------ *)
(** ** A small Surface class and environment to run the model on *)

Module Demo.

Definition int_arg (args : pyargs) : Z :=
  match args with
  | PInt k :: _ => k
  | _ => 0%Z
  end.

(** A surface is one height; [rotate k] adds [k], [zoom k] multiplies by
    [k], [zero] resets.  [Sa] and [Sq] are scalars, [Vmc p] depends on its
    argument, [extent] is a labelled pair, [pair] has no labels, [triple]
    has too few, and [file] is a scalar under the name of the filename
    column. *)
Definition methods (name : string) : option (method Z) :=
  if String.eqb name "rotate"
  then Some (mkMethod (fun a _ s => Returns (PNone, (s + int_arg a)%Z)) None)
  else if String.eqb name "zoom"
  then Some (mkMethod (fun a _ s => Returns (PNone, (s * int_arg a)%Z)) None)
  else if String.eqb name "zero"
  then Some (mkMethod (fun _ _ _ => Returns (PNone, 0%Z)) None)
  else if String.eqb name "Sa"
  then Some (mkMethod (fun _ _ s => Returns (PInt s, s)) None)
  else if String.eqb name "Sq"
  then Some (mkMethod (fun _ _ s => Returns (PInt (s * s), s)) None)
  else if String.eqb name "Vmc"
  then Some (mkMethod (fun a _ s => Returns (PInt (s + int_arg a), s)) None)
  else if String.eqb name "extent"
  then Some (mkMethod (fun _ _ s => Returns (PTuple [PInt s; PInt (2 * s)], s))
                      (Some ["x"; "y"]))
  else if String.eqb name "pair"
  then Some (mkMethod (fun _ _ s => Returns (PTuple [PInt s; PInt s], s)) None)
  else if String.eqb name "triple"
  then Some (mkMethod
               (fun _ _ s => Returns (PTuple [PInt s; PInt s; PInt s], s))
               (Some ["x"; "y"]))
  else if String.eqb name "file"
  then Some (mkMethod (fun _ _ s => Returns (PInt 7, s)) None)
  else None.

(** A file loads to the length of its name; [broken.ext] does not load. *)
Definition load (p : Path) : outcome Z :=
  if String.eqb (Path_name p) "broken.ext"
  then Raises "ValueError" "unsupported file"
  else Returns (Z.of_nat (String.length (Path_name p))).

#[export] Instance surface : SurfaceClass := {|
  Surface := Z;
  Surface_load := load;
  Surface_method := methods;
  AVAILABLE_PARAMETERS := ["Sa"; "Sq"; "Vmc"; "extent"]
|}.

(** [meta.xlsx] has thicknesses for [a.ext] and [b.ext]; [plain.xlsx]
    has no column [file]. *)
Definition meta : DataFrame :=
  mkDataFrame ["file"; "thickness"]
              [[Some (PStr "a.ext"); Some (PInt 10)];
               [Some (PStr "b.ext"); Some (PInt 20)]].

Definition plain : DataFrame :=
  mkDataFrame ["name"; "thickness"]
              [[Some (PStr "a.ext"); Some (PInt 10)]].

Definition excel (src : string) : outcome DataFrame :=
  if String.eqb src "meta.xlsx" then Returns meta
  else if String.eqb src "plain.xlsx" then Returns plain
  else Raises "FileNotFoundError" src.

#[export] Instance environment : Environment := {|
  read_excel := excel;
  to_excel := fun _ _ => Returns tt;
  imap_unordered := @rev Path;
  imap_unordered_perm := fun l => Permutation_sym (Permutation_rev l)
|}.

Definition files : list string := ["data/a.ext"; "data/b.ext"; "data/c.ext"].

Definition a_ext : Path := Path_of_string "data/a.ext".

(** [Vmc] with one positional argument. *)
Definition Vmc (k : Z) : PyParameter := mkParameter "Vmc" [PInt k] Dict.empty.

(** A controller over the three files with the metadata and with [Sa]
    and [Sq] registered, and the records its tasks return. *)
Definition batch : Batch.t :=
  Batch.mk (map Path_of_string files) (Some meta) []
           [default_parameter "Sa"; default_parameter "Sq"].

Definition records : list Dict.t :=
  [[("file", PStr "a.ext"); ("Sa", PInt 5); ("Sq", PInt 25)];
   [("file", PStr "b.ext"); ("Sa", PInt 5); ("Sq", PInt 25)];
   [("file", PStr "c.ext"); ("Sa", PInt 5); ("Sq", PInt 25)]].

(** A controller on which nothing is registered. *)
Definition idle : Batch.t := Batch.mk (map Path_of_string files) None [] [].

(** Three files, the second of which does not load. *)
Definition with_broken_file : Batch.t :=
  Batch.mk (map Path_of_string ["a.ext"; "broken.ext"; "c.ext"]) None []
           [default_parameter "Sa"].

(** A controller with metadata, a registered operation and no file. *)
Definition without_files : Batch.t :=
  Batch.level (Batch.mk [] (Some meta) [] []).

End Demo.

(* ------------------------------------------------------------------ *)
(** ** Calls of the registration methods *)

(** A call of one of the methods of the controller that register an
    operation, with the arguments of the call. *)
Inductive operation_call : Type :=
| CallZero
| CallCenter
| CallThreshold (threshold : pyval)
| CallRemoveOutliers (n method : pyval)
| CallFillNonmeasured (method : pyval)
| CallLevel
| CallFilter (filter_type cutoff cutoff2 : pyval)
| CallRotate (angle : pyval)
| CallAlign (axis : pyval)
| CallZoom (factor : pyval).

(** The name under which the method is defined in [class Batch]. *)
Definition method_name (c : operation_call) : string :=
  match c with
  | CallZero => "zero"
  | CallCenter => "center"
  | CallThreshold _ => "threshold"
  | CallRemoveOutliers _ _ => "remove_outliers"
  | CallFillNonmeasured _ => "fill_nonmeasured"
  | CallLevel => "level"
  | CallFilter _ _ _ => "filter"
  | CallRotate _ => "rotate"
  | CallAlign _ => "align"
  | CallZoom _ => "zoom"
  end.

(** The call itself, on the controller [self]. *)
Definition call_operation_method (c : operation_call) (self : Batch.t)
  : Batch.t :=
  match c with
  | CallZero => Batch.zero self
  | CallCenter => Batch.center self
  | CallThreshold threshold => Batch.threshold threshold self
  | CallRemoveOutliers n method => Batch.remove_outliers n method self
  | CallFillNonmeasured method => Batch.fill_nonmeasured method self
  | CallLevel => Batch.level self
  | CallFilter filter_type cutoff cutoff2 =>
      Batch.filter filter_type cutoff cutoff2 self
  | CallRotate angle => Batch.rotate angle self
  | CallAlign axis => Batch.align axis self
  | CallZoom factor => Batch.zoom factor self
  end.

(** A chain of calls, [batch.m1(...).m2(...)...]. *)
Definition call_chain (calls : list operation_call) (self : Batch.t)
  : Batch.t :=
  fold_left (fun self c => call_operation_method c self) calls self.

(** The two messages of [Parameter.calculate_from]. *)
Definition no_labels_message (ident : string) : string :=
  "No return labels registered for Surface." ++ ident ++ ".".

Definition label_count_message : string :=
  "Number of registered return labels do not match number of returned values.".

(** Every method of a registered parameter returns a scalar. *)
Definition scalar_valued `{SurfaceClass} (parameters : list PyParameter)
  : Prop :=
  forall p m a k s v s',
    In p parameters ->
    Surface_method (identifier p) = Some m ->
    call m a k s = Returns (v, s') ->
    is_list_like v = false.

(** The record the task of a file returns. *)
Definition task_returns `{SurfaceClass} (operations : list Operation)
    (parameters : list PyParameter) (filepath : Path) (record : Dict.t)
  : Prop :=
  fst (_task filepath operations parameters []) = Ok record.

(* ------------------------------------------------------------------ *)
(** * Properties *)

(** ** Dictionaries *)

Section DictFacts.

Lemma get_set_same k v d : Dict.get k (Dict.set k v d) = Some v.
Proof.
  induction d as [|[k' v'] d IH]; simpl.
  - now rewrite String.eqb_refl.
  - destruct (String.eqb k k') eqn:E; simpl; rewrite E; auto.
Qed.

Lemma get_set_other k k' v d :
  k <> k' -> Dict.get k (Dict.set k' v d) = Dict.get k d.
Proof.
  intro Hne. induction d as [|[k0 v0] d IH]; simpl.
  - apply String.eqb_neq in Hne. now rewrite Hne.
  - destruct (String.eqb k' k0) eqn:E; simpl.
    + apply String.eqb_eq in E. subst k0.
      apply String.eqb_neq in Hne. now rewrite Hne.
    + now rewrite IH.
Qed.

Lemma get_In k v d : Dict.get k d = Some v -> In (k, v) d.
Proof.
  induction d as [|[k' v'] d IH]; simpl; [discriminate|].
  destruct (String.eqb k k') eqn:E.
  - apply String.eqb_eq in E. intros [= ->]. subst. now left.
  - intro H. right. auto.
Qed.

Lemma get_None_keys k d : Dict.get k d = None <-> ~ In k (Dict.keys d).
Proof.
  induction d as [|[k' v'] d IH]; simpl.
  - tauto.
  - destruct (String.eqb k k') eqn:E.
    + apply String.eqb_eq in E. subst. split; [discriminate | tauto].
    + apply String.eqb_neq in E. rewrite IH. split.
      * intros H [H1 | H1]; [congruence | tauto].
      * tauto.
Qed.

Lemma get_app k d1 d2 :
  Dict.get k (d1 ++ d2) =
  match Dict.get k d1 with
  | Some v => Some v
  | None => Dict.get k d2
  end.
Proof.
  induction d1 as [|[k' v'] d1 IH]; simpl; auto.
  destruct (String.eqb k k'); auto.
Qed.

Lemma set_absent k v d :
  ~ In k (Dict.keys d) -> Dict.set k v d = d ++ [(k, v)].
Proof.
  induction d as [|[k' v'] d IH]; simpl; intro H; auto.
  destruct (String.eqb k k') eqn:E.
  - apply String.eqb_eq in E. subst. tauto.
  - f_equal. apply IH. tauto.
Qed.

Lemma keys_set_present k v d :
  In k (Dict.keys d) -> Dict.keys (Dict.set k v d) = Dict.keys d.
Proof.
  induction d as [|[k' v'] d IH]; simpl; intro H; [tauto|].
  destruct (String.eqb k k') eqn:E; simpl; auto.
  f_equal. apply IH. destruct H as [H | H]; auto.
  apply String.eqb_neq in E. congruence.
Qed.

Lemma NoDup_keys_set k v d :
  NoDup (Dict.keys d) -> NoDup (Dict.keys (Dict.set k v d)).
Proof.
  intro H. destruct (in_dec string_dec k (Dict.keys d)) as [Hin | Hnin].
  - now rewrite keys_set_present.
  - rewrite set_absent by assumption. unfold Dict.keys.
    rewrite map_app. simpl.
    apply NoDup_rev in H. rewrite <- (rev_involutive (map fst d ++ [k])).
    apply NoDup_rev. rewrite rev_app_distr. simpl. constructor; auto.
    now rewrite <- in_rev.
Qed.

Lemma NoDup_keys_fold kvs : forall d,
  NoDup (Dict.keys d) ->
  NoDup (Dict.keys
           (fold_left (fun acc kv => Dict.set (fst kv) (snd kv) acc) kvs d)).
Proof.
  induction kvs as [|kv kvs IH]; simpl; intros d H; auto.
  apply IH. now apply NoDup_keys_set.
Qed.

Lemma NoDup_keys_update d other :
  NoDup (Dict.keys d) -> NoDup (Dict.keys (Dict.update d other)).
Proof. apply NoDup_keys_fold. Qed.

Lemma NoDup_keys_of_pairs kvs : NoDup (Dict.keys (Dict.of_pairs kvs)).
Proof. apply NoDup_keys_fold. constructor. Qed.

(** Assigning pairs in order: the rightmost pair with the key decides. *)
Lemma get_fold k kvs : forall d,
  Dict.get k (fold_left (fun acc kv => Dict.set (fst kv) (snd kv) acc) kvs d) =
  match Dict.last_binding k kvs with
  | Some v => Some v
  | None => Dict.get k d
  end.
Proof.
  unfold Dict.last_binding.
  induction kvs as [|[k' v'] kvs IH]; simpl; intro d; auto.
  rewrite IH, get_app. destruct (Dict.get k (rev kvs)); auto.
  simpl. destruct (String.eqb k k') eqn:E.
  - apply String.eqb_eq in E. subst. apply get_set_same.
  - apply String.eqb_neq in E. now apply get_set_other.
Qed.

Lemma get_update k d other :
  Dict.get k (Dict.update d other) =
  match Dict.last_binding k other with
  | Some v => Some v
  | None => Dict.get k d
  end.
Proof. apply get_fold. Qed.

Lemma get_of_pairs k kvs :
  Dict.get k (Dict.of_pairs kvs) = Dict.last_binding k kvs.
Proof.
  unfold Dict.of_pairs. rewrite get_fold.
  now destruct (Dict.last_binding k kvs).
Qed.

(** In a dict the only pair with a key is the rightmost one. *)
Lemma last_binding_NoDup k d :
  NoDup (Dict.keys d) -> Dict.last_binding k d = Dict.get k d.
Proof.
  unfold Dict.last_binding.
  induction d as [|[k' v'] d IH]; simpl; intro H; auto.
  inversion H as [|? ? Hnin Hnd]; subst.
  rewrite get_app, IH by assumption. simpl.
  destruct (String.eqb k k') eqn:E.
  - apply String.eqb_eq in E. subst.
    apply get_None_keys in Hnin. now rewrite Hnin.
  - now destruct (Dict.get k d).
Qed.

Lemma of_pairs_NoDup kvs :
  NoDup (map fst kvs) -> Dict.of_pairs kvs = kvs.
Proof.
  unfold Dict.of_pairs.
  assert (G : forall d,
             NoDup (map fst (d ++ kvs)) ->
             fold_left (fun acc kv => Dict.set (fst kv) (snd kv) acc) kvs d
             = d ++ kvs).
  { induction kvs as [|[k v] kvs IH]; simpl; intros d H.
    - now rewrite app_nil_r.
    - rewrite set_absent.
      + rewrite IH; rewrite <- app_assoc; auto.
      + rewrite map_app in H. simpl in H.
        apply NoDup_remove_2 in H. intro Hin. apply H.
        apply in_or_app. now left. }
  intro H. now apply (G []).
Qed.

(** The mappings folded into a record: the latest one with the key
    decides, the record it is folded into comes last. *)
Lemma get_fold_update_last k (outs : list Dict.t) : forall d i r v,
  nth_error outs i = Some r ->
  NoDup (Dict.keys r) ->
  Dict.get k r = Some v ->
  (forall j r', (i < j)%nat -> nth_error outs j = Some r' ->
                Dict.get k r' = None) ->
  Dict.get k (fold_left Dict.update outs d) = Some v.
Proof.
  induction outs as [|r0 outs IH]; intros d i r v Hi Hnd Hget Hlater.
  - destruct i; discriminate.
  - destruct i as [|i]; simpl in Hi |- *.
    + injection Hi as ->.
      assert (G : forall l d', Dict.get k d' = Some v ->
                   (forall r', In r' l -> Dict.get k r' = None) ->
                   Dict.get k (fold_left Dict.update l d') = Some v).
      { induction l as [|r1 l IHl]; simpl; intros d' H1 H2; auto.
        apply IHl; [|intros; apply H2; auto].
        rewrite get_update.
        destruct (Dict.last_binding k r1) eqn:E; auto.
        unfold Dict.last_binding in E. apply get_In in E.
        apply in_rev in E.
        assert (Hk : In k (Dict.keys r1))
          by (unfold Dict.keys; apply in_map_iff; exists (k, p); auto).
        specialize (H2 r1 (or_introl eq_refl)).
        apply get_None_keys in H2. tauto. }
      apply G.
      * rewrite get_update, last_binding_NoDup, Hget; auto.
      * intros r' Hin. apply In_nth_error in Hin. destruct Hin as [j Hj].
        apply (Hlater (S j)); [lia | exact Hj].
    + apply (IH _ i r v); auto.
      intros j r' Hlt Hj. apply (Hlater (S j)); [lia | exact Hj].
Qed.

Lemma get_fold_update_none k (outs : list Dict.t) : forall d,
  (forall r, In r outs -> Dict.get k r = None) ->
  Dict.get k (fold_left Dict.update outs d) = Dict.get k d.
Proof.
  induction outs as [|r outs IH]; simpl; intros d H; auto.
  rewrite IH by (intros; apply H; auto).
  rewrite get_update.
  destruct (Dict.last_binding k r) eqn:E; auto.
  unfold Dict.last_binding in E. apply get_In, in_rev in E.
  specialize (H r (or_introl eq_refl)). apply get_None_keys in H.
  exfalso. apply H. unfold Dict.keys. apply in_map_iff.
  exists (k, p). auto.
Qed.

Lemma get_fold_update_origin k v (outs : list Dict.t) : forall d,
  Dict.get k (fold_left Dict.update outs d) = Some v ->
  Dict.get k d = Some v \/ exists r, In r outs /\ In (k, v) r.
Proof.
  induction outs as [|r outs IH]; simpl; intros d H; auto.
  apply IH in H. destruct H as [H | [r' [H1 H2]]].
  - rewrite get_update in H.
    destruct (Dict.last_binding k r) eqn:E.
    + injection H as ->. right. exists r. split; auto.
      unfold Dict.last_binding in E. now apply get_In, in_rev in E.
    + now left.
  - right. exists r'. auto.
Qed.

Lemma NoDup_keys_fold_update (outs : list Dict.t) : forall d,
  NoDup (Dict.keys d) -> NoDup (Dict.keys (fold_left Dict.update outs d)).
Proof.
  induction outs as [|r outs IH]; simpl; intros d H; auto.
  apply IH. now apply NoDup_keys_update.
Qed.

End DictFacts.

(** ** Lists and strings *)

Section ListFacts.

Lemma append_cancel (a b c : string) :
  (a ++ b)%string = (a ++ c)%string -> b = c.
Proof.
  induction a as [|x a IH]; simpl; intro H; auto.
  injection H as H. auto.
Qed.

Lemma label_key_inj ident l1 l2 :
  label_key ident l1 = label_key ident l2 -> l1 = l2.
Proof.
  unfold label_key. intro H.
  apply append_cancel in H. now apply (append_cancel "_") in H.
Qed.

Lemma nth_error_combine {A B : Type} (l1 : list A) : forall (l2 : list B) i a b,
  nth_error l1 i = Some a -> nth_error l2 i = Some b ->
  nth_error (combine l1 l2) i = Some (a, b).
Proof.
  induction l1 as [|x l1 IH]; intros [|y l2] [|i] a b H1 H2;
    simpl in *; try discriminate.
  - congruence.
  - auto.
Qed.

Lemma nth_error_combine_inv {A B : Type} (l1 : list A) :
  forall (l2 : list B) i a b,
  nth_error (combine l1 l2) i = Some (a, b) ->
  nth_error l1 i = Some a /\ nth_error l2 i = Some b.
Proof.
  induction l1 as [|x l1 IH]; intros [|y l2] [|i] a b H;
    simpl in *; try discriminate.
  - injection H as -> ->. auto.
  - auto.
Qed.

(** The pairs a labelled result is built from, keys first. *)
Lemma labelled_pairs ident (vs : list pyval) : forall labels,
  map (fun vl => (label_key ident (snd vl), fst vl)) (combine vs labels) =
  combine (map (label_key ident) (firstn (List.length vs) labels))
          (firstn (List.length labels) vs).
Proof.
  induction vs as [|v vs IH]; intros [|l labels]; simpl; auto.
  now rewrite IH.
Qed.

Lemma map_fst_combine {A B : Type} (l1 : list A) : forall l2 : list B,
  List.length l1 = List.length l2 -> map fst (combine l1 l2) = l1.
Proof.
  induction l1 as [|x l1 IH]; intros [|y l2] H; simpl in *;
    try discriminate; auto.
  f_equal. apply IH. lia.
Qed.

Lemma NoDup_map_label_key ident labels :
  NoDup labels -> NoDup (map (label_key ident) labels).
Proof.
  induction 1 as [|l labels Hnin Hnd IH]; simpl; constructor; auto.
  intro Hin. apply in_map_iff in Hin. destruct Hin as [l' [Heq Hin]].
  apply label_key_inj in Heq. subst. tauto.
Qed.

Lemma last_binding_nth (kvs : list (string * pyval)) : forall i k v,
  nth_error kvs i = Some (k, v) ->
  (forall j kv, (i < j)%nat -> nth_error kvs j = Some kv -> fst kv <> k) ->
  Dict.last_binding k kvs = Some v.
Proof.
  unfold Dict.last_binding.
  induction kvs as [|kv kvs IH]; intros i k v Hi Hlater.
  - destruct i; discriminate.
  - simpl. rewrite get_app. destruct i as [|i]; simpl in Hi.
    + injection Hi as ->.
      assert (Hnone : Dict.get k (rev kvs) = None).
      { apply get_None_keys. unfold Dict.keys. intro Hin.
        apply in_map_iff in Hin. destruct Hin as [kv [Hk Hin]].
        apply in_rev, In_nth_error in Hin. destruct Hin as [j Hj].
        apply (Hlater (S j) kv); [lia | exact Hj | exact Hk]. }
      rewrite Hnone. simpl. now rewrite String.eqb_refl.
    + rewrite (IH i k v); auto.
      intros j kv' Hlt Hj. apply (Hlater (S j)); [lia | exact Hj].
Qed.

Lemma mem_In c cols : mem c cols = true <-> In c cols.
Proof.
  unfold mem. rewrite existsb_exists. split.
  - intros [x [Hin Heq]]. apply String.eqb_eq in Heq. now subst.
  - intro Hin. exists c. split; auto. apply String.eqb_refl.
Qed.

Lemma mem_not_In c cols : mem c cols = false <-> ~ In c cols.
Proof.
  rewrite <- mem_In. destruct (mem c cols); split; congruence.
Qed.

End ListFacts.

(** ** Deferred calls *)

Section CallFacts.
Context `{SC : SurfaceClass}.

(** What [calculate_from] does once the method is found and has
    returned. *)
Lemma calculate_from_returned p s m v s' :
  Surface_method (identifier p) = Some m ->
  call m (args p) (kwargs p) s = Returns (v, s') ->
  calculate_from p s =
  if is_list_like v then
    match return_labels m with
    | None =>
        Err (BatchError ("No return labels registered for Surface."
                           ++ identifier p ++ "."))
    | Some labels =>
        if (py_len v =? List.length labels)%nat
        then Ok (Dict.of_pairs
                   (map (fun vl => (label_key (identifier p) (snd vl), fst vl))
                        (combine (py_items v) labels)), s')
        else Err (BatchError
                    "Number of registered return labels do not match number of returned values.")
    end
  else Ok ([(identifier p, v)], s').
Proof.
  intros Hm Hc. unfold calculate_from, getattr_surface.
  rewrite Hm. simpl. rewrite Hc. simpl.
  destruct (is_list_like v); auto.
  destruct (return_labels m) as [labels|]; simpl; auto.
  destruct (py_len v =? List.length labels)%nat; auto.
Qed.

(** A result comes from a method that was found and returned. *)
Lemma calculate_from_Ok p s r s' :
  calculate_from p s = Ok (r, s') ->
  exists m v,
    Surface_method (identifier p) = Some m /\
    call m (args p) (kwargs p) s = Returns (v, s').
Proof.
  unfold calculate_from, getattr_surface.
  destruct (Surface_method (identifier p)) as [m|]; simpl; [|discriminate].
  destruct (call m (args p) (kwargs p) s) as [[v s1]|] eqn:Hc; simpl;
    [|discriminate].
  intro H. exists m, v. split; auto. f_equal. f_equal.
  destruct (is_list_like v).
  - destruct (return_labels m); simpl in H; [|discriminate].
    destruct (negb _); [discriminate|]. congruence.
  - congruence.
Qed.

Lemma calculate_from_NoDup p s r s' :
  calculate_from p s = Ok (r, s') -> NoDup (Dict.keys r).
Proof.
  intro H. destruct (calculate_from_Ok _ _ H) as [m [v [Hm Hc]]].
  rewrite (calculate_from_returned _ _ Hm Hc) in H.
  destruct (is_list_like v).
  - destruct (return_labels m); [|discriminate].
    destruct (_ =? _)%nat; [|discriminate].
    injection H as <-. apply NoDup_keys_of_pairs.
  - injection H as <-. simpl. constructor; [tauto | constructor].
Qed.

(** The two messages of [calculate_from] differ from the one of
    [execute]. *)
Lemma calculate_from_message p s msg :
  calculate_from p s = Err (BatchError msg) ->
  msg <> Batch.nothing_registered.
Proof.
  unfold calculate_from, getattr_surface.
  destruct (Surface_method (identifier p)) as [m|]; simpl; [|discriminate].
  destruct (call m (args p) (kwargs p) s) as [[v s1]|]; simpl;
    [|discriminate].
  destruct (is_list_like v); [|discriminate].
  destruct (return_labels m); simpl.
  - destruct (negb _); [|discriminate].
    intros [= <-]. discriminate.
  - intros [= <-]. discriminate.
Qed.

End CallFacts.

(** ** The loops of the task *)

Section LoopFacts.
Context `{SC : SurfaceClass}.

Lemma execute_all_replays operations : forall s s',
  execute_all operations s = Ok s' <->
  exists states,
    nth_error states 0 = Some s /\
    nth_error states (List.length operations) = Some s' /\
    replays operations states.
Proof.
  induction operations as [|o ops IH]; intros s s'; split.
  - simpl. intros [= <-]. exists [s]. repeat split; auto.
    intros [|i] ? ? H; discriminate.
  - intros [states [H0 [Hn _]]]. simpl in *. congruence.
  - simpl. destruct (execute_on o s) as [s1|] eqn:E; simpl; [|discriminate].
    intro H. apply IH in H. destruct H as [states [H0 [Hn [Hlen Hstep]]]].
    exists (s :: states). repeat split; simpl; auto.
    intros [|i] o' s0 Ho Hs; simpl in *.
    + injection Ho as <-. injection Hs as <-. exists s1. auto.
    + eauto.
  - intros [[|x states] [H0 [Hn [Hlen Hstep]]]]; [discriminate|].
    simpl in H0. injection H0 as ->.
    destruct (Hstep 0%nat o s eq_refl eq_refl) as [s1 [H1 He]].
    simpl in *. rewrite He. simpl. apply IH. exists states.
    split; [exact H1|]. split; [exact Hn|]. split; [lia|].
    intros i o' s0 Ho Hs. apply (Hstep (S i) o' s0); auto.
Qed.

Lemma calculate_all_evaluates parameters : forall s d record s',
  calculate_all parameters s d = Ok (record, s') <->
  exists states outs,
    nth_error states 0 = Some s /\
    nth_error states (List.length parameters) = Some s' /\
    evaluates parameters states outs /\
    record = fold_left Dict.update outs d.
Proof.
  induction parameters as [|p ps IH]; intros s d record s'; split.
  - simpl. intros [= <- <-]. exists [s], []. repeat split; auto.
    intros [|i] ? ? H; discriminate.
  - intros [states [outs [H0 [Hn [[_ [Hlen _]] Hrec]]]]].
    destruct outs; [|discriminate]. simpl in *. congruence.
  - simpl. destruct (calculate_from p s) as [[r s1]|] eqn:E; simpl;
      [|discriminate].
    intro H. apply IH in H.
    destruct H as [states [outs [H0 [Hn [[Hl1 [Hl2 Hstep]] Hrec]]]]].
    exists (s :: states), (r :: outs). repeat split; simpl; auto.
    intros [|i] p' s0 Hp Hs; simpl in *.
    + injection Hp as <-. injection Hs as <-. exists r, s1. auto.
    + eauto.
  - intros [[|x states] [outs [H0 [Hn [[Hl1 [Hl2 Hstep]] Hrec]]]]];
      [discriminate|].
    simpl in H0. injection H0 as ->.
    destruct (Hstep 0%nat p s eq_refl eq_refl) as [r [s1 [Hr [H1 He]]]].
    destruct outs as [|r' outs]; [discriminate|].
    simpl in Hr. injection Hr as ->.
    simpl in *. rewrite He. simpl. apply IH. exists states, outs.
    split; [exact H1|]. split; [exact Hn|]. split; [|exact Hrec].
    split; [lia|]. split; [lia|].
    intros i p' s0 Hp Hs. apply (Hstep (S i) p' s0); auto.
Qed.

(** The mappings of a run are dicts. *)
Lemma evaluates_NoDup parameters states outs i r :
  evaluates parameters states outs ->
  nth_error outs i = Some r -> NoDup (Dict.keys r).
Proof.
  intros [Hl1 [Hl2 Hstep]] Hr.
  assert (Hi : (i < List.length parameters)%nat).
  { rewrite <- Hl2. apply nth_error_Some. congruence. }
  destruct (nth_error parameters i) as [p|] eqn:Hp;
    [|apply nth_error_None in Hp; lia].
  destruct (nth_error states i) as [s|] eqn:Hs;
    [|apply nth_error_None in Hs; lia].
  destruct (Hstep i p s Hp Hs) as [r' [s' [Hr' [_ Hc]]]].
  assert (r' = r) by congruence. subst.
  eapply calculate_from_NoDup; eauto.
Qed.

(** [_task] returns a record exactly on a successful run, and has then
    read the one file. *)
Lemma _task_runs filepath operations parameters t record t' :
  _task filepath operations parameters t = (Ok record, t') <->
  t' = t ++ [EvLoad filepath] /\
  exists outs, runs_task filepath operations parameters outs record.
Proof.
  unfold _task, runs_task, io_bind, io_access, io_lift, io_ret. split.
  - destruct (Surface_load filepath) as [loaded|]; simpl; [|discriminate].
    destruct (execute_all operations loaded) as [final|] eqn:Ho;
      [|discriminate].
    destruct (calculate_all parameters final _) as [[rec s']|] eqn:Hp;
      [|discriminate].
    intros [= <- <-]. split; auto.
    apply execute_all_replays in Ho. destruct Ho as [ostates [? [? ?]]].
    apply calculate_all_evaluates in Hp.
    destruct Hp as [pstates [outs [? [? [? ?]]]]].
    exists outs, loaded, ostates, final, pstates.
    split; [reflexivity|]. repeat (split; [assumption|]). assumption.
  - intros [-> [outs [loaded [ostates [final [pstates H]]]]]].
    destruct H as [Hl [Ho0 [Hor [Hon [Hp0 [Hev Hrec]]]]]].
    rewrite Hl. simpl.
    assert (Ho : execute_all operations loaded = Ok final)
      by (apply execute_all_replays; eauto).
    rewrite Ho.
    destruct (nth_error pstates (List.length parameters)) as [s'|] eqn:Hs'.
    + assert (Hp : calculate_all parameters final
                     [("file", PStr (Path_name filepath))] = Ok (record, s')).
      { apply calculate_all_evaluates. exists pstates, outs. auto. }
      rewrite Hp. reflexivity.
    + apply nth_error_None in Hs'. destruct Hev as [Hlen _]. lia.
Qed.

End LoopFacts.

(** ** Paths *)

Section PathFacts.

Lemma split_slash_no_separator s : forall cur,
  ~ In "/"%char cur -> Forall no_separator (split_slash cur s).
Proof.
  induction s as [|c s IH]; intros cur Hcur; simpl.
  - constructor; [|constructor]. unfold no_separator.
    rewrite list_ascii_of_string_of_list_ascii, <- in_rev. exact Hcur.
  - destruct (Ascii.eqb c "/") eqn:E.
    + constructor.
      * unfold no_separator.
        rewrite list_ascii_of_string_of_list_ascii, <- in_rev. exact Hcur.
      * apply IH. simpl. tauto.
    + apply IH. apply Ascii.eqb_neq in E. simpl. intros [H | H]; auto.
Qed.

Lemma last_Forall {A : Type} (P : A -> Prop) (l : list A) d :
  Forall P l -> P d -> P (last l d).
Proof.
  induction 1 as [|x l Hx Hl IH]; simpl; auto.
  destruct l; auto.
Qed.

(** The name of a path built from a string has no directory part. *)
Lemma Path_name_no_separator s :
  no_separator (Path_name (Path_of_string s)).
Proof.
  unfold Path_name, Path_of_string. simpl. apply last_Forall.
  - apply Forall_forall. intros x Hx. apply filter_In in Hx.
    destruct Hx as [Hx _]. revert x Hx. apply Forall_forall.
    apply split_slash_no_separator. simpl. tauto.
  - unfold no_separator. simpl. tauto.
Qed.

End PathFacts.

(** ** The claims on deferred calls and on the task *)

Section TaskClaims.
Context `{SC : SurfaceClass}.

Lemma In_get_NoDup k v (d : Dict.t) :
  NoDup (Dict.keys d) -> In (k, v) d -> Dict.get k d = Some v.
Proof.
  induction d as [|[k' v'] d IH]; simpl; intros Hnd Hin; [tauto|].
  inversion Hnd as [|? ? Hnin Hnd']; subst.
  destruct Hin as [Heq | Hin].
  - injection Heq as -> ->. now rewrite String.eqb_refl.
  - destruct (String.eqb k k') eqn:E; auto.
    apply String.eqb_eq in E. subst. exfalso. apply Hnin.
    unfold Dict.keys. apply in_map_iff. exists (k', v). auto.
Qed.

(** C1, as amended.  [_task] returns a record exactly when the file
    loads and every call succeeds, and it has then read that one file.
    The operations were executed in registration order, each on the state
    its predecessor left; the parameters were evaluated in registration
    order from the state the operations left; the record is the mapping
    with the filename into which the parameter results were merged in
    order.  It holds the filename under 'file' when no parameter produced
    that key, it holds an entry of a parameter when no later parameter
    produced the same key, and it holds nothing else.  The name of a path
    built from a string has no directory component. *)
Theorem task_runs_in_registration_order
    filepath operations parameters t record t' :
  _task filepath operations parameters t = (Ok record, t') <->
  t' = t ++ [EvLoad filepath] /\
  exists outs,
    runs_task filepath operations parameters outs record /\
    ((forall r, In r outs -> Dict.get "file" r = None) ->
     Dict.get "file" record = Some (PStr (Path_name filepath))) /\
    (forall i r k v,
        nth_error outs i = Some r ->
        Dict.get k r = Some v ->
        not_produced_after k i outs ->
        Dict.get k record = Some v) /\
    (forall k v,
        Dict.get k record = Some v ->
        (k = "file" /\ v = PStr (Path_name filepath)) \/
        exists r, In r outs /\ Dict.get k r = Some v) /\
    (forall s, filepath = Path_of_string s ->
               no_separator (Path_name filepath)).
Proof.
  rewrite _task_runs. split.
  - intros [Ht [outs Hrun]]. split; auto. exists outs. split; auto.
    destruct Hrun as [loaded [ostates [final [pstates H]]]].
    destruct H as [_ [_ [_ [_ [_ [Hev Hrec]]]]]].
    split; [|split; [|split]].
    + intro Hnone. subst record.
      rewrite get_fold_update_none by assumption. reflexivity.
    + intros i r k v Hi Hget Hlater. subst record.
      apply (@get_fold_update_last k outs _ i r v); auto.
      eapply evaluates_NoDup; eauto.
    + intros k v Hget. subst record.
      apply get_fold_update_origin in Hget.
      destruct Hget as [Hget | [r [Hin Hkv]]].
      * left. simpl in Hget. destruct (String.eqb k "file") eqn:E;
          [|discriminate].
        apply String.eqb_eq in E. split; congruence.
      * right. exists r. split; auto.
        apply In_get_NoDup; auto.
        apply In_nth_error in Hin. destruct Hin as [i Hi].
        eapply evaluates_NoDup; eauto.
    + intros s ->. apply Path_name_no_separator.
  - intros [Ht [outs [Hrun _]]]. split; auto. exists outs. exact Hrun.
Qed.

(** C2.  When the method returns a scalar, the result mapping is the one
    entry [identifier: value].  When it returns a collection of two or more
    values and carries as many labels, the result mapping has, for every
    position, the value under the key [identifier_label]: the value of a
    position is found under its key unless a later position has the same
    label, and with distinct labels the mapping is the list of these
    entries in the order of the positions. *)
Theorem calculate_from_result_mapping p s m v s' :
  Surface_method (identifier p) = Some m ->
  call m (args p) (kwargs p) s = Returns (v, s') ->
  (is_list_like v = false ->
   calculate_from p s = Ok ([(identifier p, v)], s')) /\
  (forall vs labels,
      v = PTuple vs ->
      (2 <= List.length vs)%nat ->
      return_labels m = Some labels ->
      List.length labels = List.length vs ->
      exists d,
        calculate_from p s = Ok (d, s') /\
        (forall i label x,
            nth_error labels i = Some label ->
            nth_error vs i = Some x ->
            (forall j, (i < j)%nat -> nth_error labels j <> Some label) ->
            Dict.get (label_key (identifier p) label) d = Some x) /\
        (forall k x,
            Dict.get k d = Some x ->
            exists i label,
              nth_error labels i = Some label /\
              nth_error vs i = Some x /\
              k = label_key (identifier p) label) /\
        (NoDup labels ->
         d = combine (map (label_key (identifier p)) labels) vs)).
Proof.
  intros Hm Hc. rewrite (calculate_from_returned _ _ Hm Hc). split.
  - intros ->. reflexivity.
  - intros vs labels -> Hlen2 -> Hlen. simpl.
    rewrite <- Hlen, Nat.eqb_refl.
    eexists. split; [reflexivity|]. split; [|split].
    + intros i label x Hl Hx Hlater. rewrite get_of_pairs.
      apply (@last_binding_nth _ i).
      * rewrite nth_error_map, (nth_error_combine _ _ _ Hx Hl).
        reflexivity.
      * intros j [k y] Hlt Hj Hk. simpl in Hk.
        rewrite nth_error_map in Hj.
        destruct (nth_error (combine vs labels) j) as [[y' l']|] eqn:Hcj;
          [|discriminate].
        simpl in Hj. injection Hj as <- <-.
        apply nth_error_combine_inv in Hcj. destruct Hcj as [_ Hlj].
        apply label_key_inj in Hk. subst. exact (Hlater j Hlt Hlj).
    + intros k x Hget. rewrite get_of_pairs in Hget.
      unfold Dict.last_binding in Hget. apply get_In, in_rev in Hget.
      apply In_nth_error in Hget. destruct Hget as [i Hi].
      rewrite nth_error_map in Hi.
      destruct (nth_error (combine vs labels) i) as [[y l]|] eqn:Hci;
        [|discriminate].
      simpl in Hi. injection Hi as <- <-.
      apply nth_error_combine_inv in Hci. destruct Hci as [Hx Hl].
      exists i, l. auto.
    + intro Hnd. rewrite labelled_pairs.
      rewrite <- Hlen, firstn_all, Hlen, firstn_all.
      apply of_pairs_NoDup.
      rewrite map_fst_combine by (rewrite length_map; exact Hlen).
      now apply NoDup_map_label_key.
Qed.

(** C3.  [calculate_from] raises the [BatchError] of the module exactly
    when the method is found and returns a collection, and either it
    carries no labels or the number of its labels differs from the number
    of values; no result mapping is produced then. *)
Theorem calculate_from_configuration_error p s :
  ((exists msg, calculate_from p s = Err (BatchError msg)) <->
   exists m v s',
     Surface_method (identifier p) = Some m /\
     call m (args p) (kwargs p) s = Returns (v, s') /\
     is_list_like v = true /\
     (return_labels m = None \/
      exists labels, return_labels m = Some labels /\
                     List.length labels <> py_len v)) /\
  ((exists msg, calculate_from p s = Err (BatchError msg)) ->
   forall r, calculate_from p s <> Ok r).
Proof.
  split; [split|].
  - intros [msg H]. revert H. unfold calculate_from at 1, getattr_surface.
    destruct (Surface_method (identifier p)) as [m|] eqn:Hm; simpl;
      [|discriminate].
    destruct (call m (args p) (kwargs p) s) as [[v s1]|] eqn:Hc; simpl;
      [|discriminate].
    destruct (is_list_like v) eqn:Hv; [|discriminate].
    intro H. exists m, v, s1. repeat split; auto.
    destruct (return_labels m) as [labels|]; [|now left].
    right. exists labels. split; auto. simpl in H.
    destruct (py_len v =? List.length labels)%nat eqn:E; [discriminate|].
    apply Nat.eqb_neq in E. congruence.
  - intros [m [v [s' [Hm [Hc [Hv Hl]]]]]].
    rewrite (calculate_from_returned _ _ Hm Hc), Hv.
    destruct Hl as [-> | [labels [-> Hne]]]; [eauto|].
    destruct (py_len v =? List.length labels)%nat eqn:E; [|eauto].
    apply Nat.eqb_eq in E. congruence.
  - intros [msg H] r. rewrite H. discriminate.
Qed.

(** C10.  The record of a task has one entry per key.  When parameters
    at two positions produce an entry under the same key and no parameter
    after the later one does, the record holds the value of the later one
    under that key and no other; when a parameter produces the key 'file'
    and none after it does, its value stands in the record in place of the
    filename. *)
Theorem later_parameter_overwrites
    filepath operations parameters t record t' :
  _task filepath operations parameters t = (Ok record, t') ->
  NoDup (Dict.keys record) /\
  exists outs,
    runs_task filepath operations parameters outs record /\
    (forall i j ri rj k vi vj,
        (i < j)%nat ->
        nth_error outs i = Some ri -> Dict.get k ri = Some vi ->
        nth_error outs j = Some rj -> Dict.get k rj = Some vj ->
        not_produced_after k j outs ->
        Dict.get k record = Some vj /\
        forall v, In (k, v) record -> v = vj) /\
    (forall j rj v,
        nth_error outs j = Some rj -> Dict.get "file" rj = Some v ->
        not_produced_after "file" j outs ->
        Dict.get "file" record = Some v /\
        forall v', In ("file", v') record -> v' = v).
Proof.
  intro H. apply _task_runs in H. destruct H as [_ [outs Hrun]].
  assert (Hrun' := Hrun).
  destruct Hrun' as [loaded [ostates [final [pstates H]]]].
  destruct H as [_ [_ [_ [_ [_ [Hev Hrec]]]]]].
  assert (Hnd : NoDup (Dict.keys record)).
  { subst record. apply NoDup_keys_fold_update. simpl.
    constructor; [tauto | constructor]. }
  assert (Hlast : forall j rj k v,
             nth_error outs j = Some rj -> Dict.get k rj = Some v ->
             not_produced_after k j outs ->
             Dict.get k record = Some v /\
             forall v', In (k, v') record -> v' = v).
  { intros j rj k v Hj Hget Hlater.
    assert (G : Dict.get k record = Some v).
    { subst record. apply (@get_fold_update_last k outs _ j rj v); auto.
      eapply evaluates_NoDup; eauto. }
    split; auto. intros v' Hin.
    apply In_get_NoDup in Hin; auto. congruence. }
  split; auto. exists outs. split; auto. split.
  - intros i j ri rj k vi vj _ _ _ Hj Hget Hlater. eapply Hlast; eauto.
  - intros j rj v Hj Hget Hlater. eapply Hlast; eauto.
Qed.

End TaskClaims.

(** ** Tables *)

Section TableFacts.

Lemma pyval_eqb_eq a : forall b, pyval_eqb a b = true <-> a = b.
Proof.
  induction a as [| x | x | m e | x | items IH] using pyval_rect';
    intros [| y | y | m' e' | y | items']; simpl;
    try (split; [discriminate | congruence]); try tauto.
  - rewrite Bool.eqb_true_iff. split; congruence.
  - rewrite Z.eqb_eq. split; congruence.
  - rewrite andb_true_iff, !Z.eqb_eq. split; [intros [-> ->] | intros [= -> ->]]; auto.
  - rewrite String.eqb_eq. split; congruence.
  - revert items'. induction IH as [|x items Hx _ IHl]; intros [|y items'];
      try (split; [discriminate | congruence]); try tauto.
    rewrite andb_true_iff, Hx, IHl. split.
    + intros [-> [= ->]]. reflexivity.
    + intros [= -> ->]. auto.
Qed.

Lemma cell_eqb_eq (a b : cell) : cell_eqb a b = true <-> a = b.
Proof.
  destruct a as [x|], b as [y|]; simpl;
    try (split; [discriminate | congruence]); try tauto.
  rewrite pyval_eqb_eq. split; congruence.
Qed.

Lemma index_of_Some c cols i :
  index_of c cols = Some i -> (i < List.length cols)%nat.
Proof.
  revert i. induction cols as [|c' cols IH]; simpl; intro i; [discriminate|].
  destruct (String.eqb c c').
  - intros [= <-]. lia.
  - destruct (index_of c cols) as [n|]; simpl; [|discriminate].
    intros [= <-]. specialize (IH n eq_refl). lia.
Qed.

Lemma index_of_In c cols : In c cols -> exists i, index_of c cols = Some i.
Proof.
  induction cols as [|c' cols IH]; simpl; [tauto|].
  destruct (String.eqb c c') eqn:E; [eauto|].
  intros [H | H].
  - apply String.eqb_neq in E. congruence.
  - destruct (IH H) as [i Hi]. rewrite Hi. simpl. eauto.
Qed.

Lemma index_of_app c l1 l2 i :
  index_of c l1 = Some i -> index_of c (l1 ++ l2) = Some i.
Proof.
  revert i. induction l1 as [|c' l1 IH]; simpl; intro i; [discriminate|].
  destruct (String.eqb c c'); auto.
  destruct (index_of c l1) as [n|]; simpl; [|discriminate].
  intros [= <-]. now rewrite (IH n eq_refl).
Qed.

Lemma index_of_map (f : string -> string) c cols :
  (forall x, String.eqb c (f x) = String.eqb c x) ->
  index_of c (map f cols) = index_of c cols.
Proof.
  intro Hf. induction cols as [|c' cols IH]; simpl; auto.
  now rewrite Hf, IH.
Qed.

(** A column renamed with a suffix is not the key column. *)
Lemma suffixed_not_file c suffix :
  suffix = "_x" \/ suffix = "_y" -> (c ++ suffix)%string <> "file".
Proof.
  intros [-> | ->];
    destruct c as [|c1 [|c2 [|c3 [|c4 [|c5 c]]]]]; simpl; discriminate.
Qed.

(** The columns of the table of records: a key of a record is a column. *)
Lemma add_columns_keeps cols d c :
  In c cols -> In c (add_columns cols d).
Proof.
  unfold add_columns. revert cols.
  induction (Dict.keys d) as [|k ks IH]; simpl; intros cols H; auto.
  apply IH. destruct (mem k cols); auto. apply in_or_app. now left.
Qed.

Lemma add_columns_adds cols d c :
  In c (Dict.keys d) -> In c (add_columns cols d).
Proof.
  unfold add_columns. revert cols.
  induction (Dict.keys d) as [|k ks IH]; simpl; intros cols H; [tauto|].
  destruct H as [-> | H]; [|now apply IH].
  assert (G : forall l acc, In c acc ->
                In c (fold_left
                        (fun acc k => if mem k acc then acc else acc ++ [k])
                        l acc)).
  { induction l as [|k l IHl]; simpl; intros acc Hc; auto.
    apply IHl. destruct (mem k acc); auto. apply in_or_app. now left. }
  apply G. destruct (mem c cols) eqn:E.
  - now apply mem_In.
  - apply in_or_app. right. now left.
Qed.

Lemma records_columns results r c :
  In r results -> In c (Dict.keys r) ->
  In c (columns (DataFrame_of_records results)).
Proof.
  simpl. generalize (@nil string).
  induction results as [|r0 results IH]; simpl; intros cols Hr Hc; [tauto|].
  destruct Hr as [-> | Hr].
  - assert (G : forall l acc, In c acc -> In c (fold_left add_columns l acc)).
    { induction l as [|d l IHl]; simpl; intros acc Ha; auto.
      apply IHl. now apply add_columns_keeps. }
    apply G. now apply add_columns_adds.
  - now apply IH.
Qed.

(** The rows of a merge: the pairs of a left and a right row with the
    same key. *)
Lemma merge_rows_In i j lrows rrows row :
  In row (merge_rows i j lrows rrows) <->
  exists l r, In l lrows /\ In r rrows /\
              nth i l None = nth j r None /\ row = l ++ remove_at j r.
Proof.
  unfold merge_rows. rewrite in_flat_map. split.
  - intros [l [Hl Hrow]]. apply in_map_iff in Hrow.
    destruct Hrow as [r [<- Hr]]. apply filter_In in Hr.
    destruct Hr as [Hr Heq]. apply cell_eqb_eq in Heq.
    exists l, r. auto.
  - intros [l [r [Hl [Hr [Heq ->]]]]]. exists l. split; auto.
    apply in_map_iff. exists r. split; auto.
    apply filter_In. split; auto. now apply cell_eqb_eq.
Qed.

(** The join [_construct_dataframe] makes when there is metadata: it
    succeeds when both tables have the column 'file'; the key column of
    the output is the one of the metadata rows, and the rows are the
    matching pairs. *)
Lemma merge_on_file (left right : DataFrame) :
  In "file" (columns left) -> In "file" (columns right) ->
  well_formed left ->
  exists out i j,
    merge left right "file" = Ok out /\
    index_of "file" (columns left) = Some i /\
    index_of "file" (columns right) = Some j /\
    rows out = merge_rows i j (rows left) (rows right) /\
    (forall l r, In l (rows left) ->
       cell_at (columns out) (l ++ remove_at j r) "file" =
       cell_at (columns left) l "file").
Proof.
  intros Hl Hr Hwf.
  destruct (index_of_In _ _ Hl) as [i Hi].
  destruct (index_of_In _ _ Hr) as [j Hj].
  unfold merge. rewrite Hi, Hj.
  eexists. exists i, j. split; [reflexivity|].
  split; [reflexivity|]. split; [reflexivity|]. split; [reflexivity|].
  intros l r Hin. unfold cell_at. cbn [columns].
  rewrite (@index_of_app _ _ _ i), Hi.
  - apply app_nth1. rewrite (Hwf l Hin). eapply index_of_Some; eauto.
  - rewrite index_of_map; auto.
    intro x. destruct (String.eqb x "file") eqn:E; cbn [negb andb]; auto.
    destruct (mem x (columns right)); auto.
    apply String.eqb_neq in E. transitivity false.
    + apply String.eqb_neq. intro H. symmetry in H. revert H.
      apply suffixed_not_file. now left.
    + symmetry. apply String.eqb_neq. congruence.
Qed.

End TableFacts.

(** ** The claims on the assembled table *)

Section AssemblerClaims.

(** With metadata, the table of records is joined to it on 'file'. *)
Lemma construct_dataframe_join self results meta :
  Batch._additional_data self = Some meta ->
  In "file" (columns meta) ->
  well_formed meta ->
  (exists r, In r results /\ In "file" (Dict.keys r)) ->
  exists out j,
    Batch._construct_dataframe self results = Ok out /\
    index_of "file" (columns (DataFrame_of_records results)) = Some j /\
    (forall row,
        In row (rows out) <->
        exists m r,
          In m (rows meta) /\
          In r (rows (DataFrame_of_records results)) /\
          cell_at (columns meta) m "file" =
          cell_at (columns (DataFrame_of_records results)) r "file" /\
          row = m ++ remove_at j r) /\
    (forall k,
        In k (column_values out "file") <->
        In k (column_values meta "file") /\
        In k (column_values (DataFrame_of_records results) "file")).
Proof.
  intros Hmeta Hfile Hwf [r0 [Hr0 Hk0]].
  unfold Batch._construct_dataframe. rewrite Hmeta.
  set (res := DataFrame_of_records results).
  assert (Hres : In "file" (columns res))
    by (eapply records_columns; eauto).
  destruct (@merge_on_file meta res Hfile Hres Hwf)
    as [out [i [j [Hm [Hi [Hj [Hrows Hkey]]]]]]].
  assert (Hrow : forall row,
             In row (rows out) <->
             exists m r,
               In m (rows meta) /\ In r (rows res) /\
               cell_at (columns meta) m "file" = cell_at (columns res) r "file" /\
               row = m ++ remove_at j r).
  { intro row. rewrite Hrows, merge_rows_In. unfold cell_at.
    rewrite Hi, Hj. tauto. }
  exists out, j. split; [exact Hm|]. split; [exact Hj|].
  split; [exact Hrow|].
  intro k. unfold column_values. rewrite !in_map_iff. split.
  - intros [row [Hk Hin]]. apply Hrow in Hin.
    destruct Hin as [m [r [Hm' [Hr [Heq ->]]]]].
    rewrite Hkey in Hk by assumption. split.
    + exists m. auto.
    + exists r. split; auto. congruence.
  - intros [[m [Hk Hm']] [r [Hk' Hr]]].
    exists (m ++ remove_at j r). split.
    + now rewrite Hkey.
    + apply Hrow. exists m, r. repeat split; auto. congruence.
Qed.

(** C4.  With metadata that has the column 'file' and with a record that
    has a 'file' entry, the final table exists and is the inner join of
    the metadata and the table of the records on 'file': its rows are the
    pairs of a metadata row and a result row with the same 'file' value,
    so a 'file' value occurs in the output exactly when it occurs in both
    tables, and rows of either table without a partner are absent. *)
Theorem metadata_is_inner_joined self results meta :
  Batch._additional_data self = Some meta ->
  In "file" (columns meta) ->
  well_formed meta ->
  (exists r, In r results /\ In "file" (Dict.keys r)) ->
  exists out j,
    Batch._construct_dataframe self results = Ok out /\
    index_of "file" (columns (DataFrame_of_records results)) = Some j /\
    (forall row,
        In row (rows out) <->
        exists m r,
          In m (rows meta) /\
          In r (rows (DataFrame_of_records results)) /\
          cell_at (columns meta) m "file" =
          cell_at (columns (DataFrame_of_records results)) r "file" /\
          row = m ++ remove_at j r) /\
    (forall k,
        In k (column_values out "file") <->
        In k (column_values meta "file") /\
        In k (column_values (DataFrame_of_records results) "file")) /\
    (forall m, In m (rows meta) ->
        ~ In (cell_at (columns meta) m "file")
             (column_values (DataFrame_of_records results) "file") ->
        ~ In (cell_at (columns meta) m "file") (column_values out "file")) /\
    (forall r, In r (rows (DataFrame_of_records results)) ->
        ~ In (cell_at (columns (DataFrame_of_records results)) r "file")
             (column_values meta "file") ->
        ~ In (cell_at (columns (DataFrame_of_records results)) r "file")
             (column_values out "file")).
Proof.
  intros Hmeta Hfile Hwf Hrec.
  destruct (@construct_dataframe_join self results meta Hmeta Hfile Hwf Hrec)
    as [out [j [Hc [Hj [Hrow Hkeys]]]]].
  exists out, j. repeat (split; [assumption|]). split.
  - intros m _ Hnot Hin. apply Hkeys in Hin. tauto.
  - intros r _ Hnot Hin. apply Hkeys in Hin. tauto.
Qed.

(** The rows a further right row adds to a merge are its pairs with the
    left rows of the same key. *)
Lemma merge_rows_step i j lrows r rrows :
  List.length (merge_rows i j lrows (r :: rrows)) =
  (List.length (List.filter
                  (fun l => cell_eqb (nth i l None) (nth j r None)) lrows)
   + List.length (merge_rows i j lrows rrows))%nat.
Proof.
  unfold merge_rows, cell in *.
  induction lrows as [|l lrows IH]; [reflexivity|].
  simpl in *. rewrite !length_app, !length_map.
  destruct (cell_eqb (nth i l None) (nth j r None)); simpl; lia.
Qed.

Lemma merge_rows_nil i j lrows : merge_rows i j lrows [] = [].
Proof.
  unfold merge_rows. induction lrows as [|l lrows IH]; simpl; auto.
Qed.

(** Among left rows with distinct keys, a key has one partner when it
    occurs and none otherwise. *)
Lemma partners_of_key i k (lrows : list (list cell)) :
  NoDup (map (fun l => nth i l None) lrows) ->
  List.length (List.filter (fun l => cell_eqb (nth i l None) k) lrows) =
  if existsb (cell_eqb k) (map (fun l => nth i l None) lrows)
  then 1%nat else 0%nat.
Proof.
  unfold cell in *.
  induction lrows as [|l lrows IH]; simpl; intro H; auto.
  inversion H as [|? ? Hnin Hnd]; subst.
  assert (Hsym : cell_eqb k (nth i l None) = cell_eqb (nth i l None) k).
  { destruct (cell_eqb (nth i l None) k) eqn:E.
    - apply cell_eqb_eq in E. apply cell_eqb_eq. now symmetry.
    - destruct (cell_eqb k (nth i l None)) eqn:E'; auto.
      apply cell_eqb_eq in E'. symmetry in E'. apply cell_eqb_eq in E'.
      congruence. }
  rewrite Hsym. destruct (cell_eqb (nth i l None) k) eqn:E; simpl.
  - apply cell_eqb_eq in E. rewrite IH by assumption.
    destruct (existsb _ _) eqn:Ex; auto.
    apply existsb_exists in Ex. destruct Ex as [x [Hin Hx]].
    apply cell_eqb_eq in Hx. subst x. exfalso. apply Hnin.
    rewrite E. exact Hin.
  - now apply IH.
Qed.

(** With distinct left keys, a merge has one row for each right row whose
    key occurs on the left. *)
Lemma merge_rows_count i j lrows rrows :
  NoDup (map (fun l => nth i l None) lrows) ->
  List.length (merge_rows i j lrows rrows) =
  List.length
    (List.filter
       (fun r => existsb (cell_eqb (nth j r None))
                         (map (fun l => nth i l None) lrows))
       rrows).
Proof.
  intro Hnd. induction rrows as [|r rrows IH].
  - now rewrite merge_rows_nil.
  - rewrite merge_rows_step, IH, (partners_of_key i (nth j r None) lrows Hnd).
    cbn [List.filter].
    destruct (existsb _ _); reflexivity.
Qed.

(** C5, as amended.  Without metadata the final table is the table of
    the records, so every result row is kept.  With metadata the join is
    an inner join.  A result row is retained exactly when a metadata row
    has the same 'file' value: it then stands in the final table with all
    its cells, behind the cells of each such metadata row; a result row
    without such a metadata row has no row in the final table, and the
    final table has no other rows.  When the 'file' values of the metadata
    are distinct, the final table has as many rows as there are result
    rows whose 'file' value occurs in the metadata. *)
Theorem result_rows_kept_when_matched self results :
  (Batch._additional_data self = None ->
   Batch._construct_dataframe self results =
   Ok (DataFrame_of_records results)) /\
  (forall meta,
      Batch._additional_data self = Some meta ->
      In "file" (columns meta) ->
      well_formed meta ->
      (exists r, In r results /\ In "file" (Dict.keys r)) ->
      exists out j,
        Batch._construct_dataframe self results = Ok out /\
        index_of "file" (columns (DataFrame_of_records results)) = Some j /\
        (forall r m,
            In r (rows (DataFrame_of_records results)) ->
            In m (rows meta) ->
            cell_at (columns meta) m "file" =
            cell_at (columns (DataFrame_of_records results)) r "file" ->
            In (m ++ firstn j r ++ skipn (S j) r) (rows out)) /\
        (forall r,
            In r (rows (DataFrame_of_records results)) ->
            ~ In (cell_at (columns (DataFrame_of_records results)) r "file")
                 (column_values meta "file") ->
            forall row,
              In row (rows out) ->
              cell_at (columns out) row "file" <>
              cell_at (columns (DataFrame_of_records results)) r "file") /\
        (forall row,
            In row (rows out) ->
            exists m r,
              In m (rows meta) /\
              In r (rows (DataFrame_of_records results)) /\
              cell_at (columns meta) m "file" =
              cell_at (columns (DataFrame_of_records results)) r "file" /\
              row = m ++ firstn j r ++ skipn (S j) r) /\
        (forall r,
            In r (rows (DataFrame_of_records results)) ->
            (In (cell_at (columns (DataFrame_of_records results)) r "file")
                (column_values out "file") <->
             In (cell_at (columns (DataFrame_of_records results)) r "file")
                (column_values meta "file"))) /\
        (NoDup (column_values meta "file") ->
         List.length (rows out) =
         List.length
           (List.filter
              (fun r =>
                 existsb
                   (cell_eqb
                      (cell_at (columns (DataFrame_of_records results)) r "file"))
                   (column_values meta "file"))
              (rows (DataFrame_of_records results))))).
Proof.
  split.
  - intro H. unfold Batch._construct_dataframe. now rewrite H.
  - intros meta Hmeta Hfile Hwf Hrec.
    destruct (@construct_dataframe_join self results meta Hmeta Hfile Hwf Hrec)
      as [out [j [Hc [Hj [Hrow Hkeys]]]]].
    exists out, j. split; [exact Hc|]. split; [exact Hj|].
    split; [|split; [|split; [|split]]].
    + intros r m Hr Hm Heq. apply Hrow. exists m, r. auto.
    + intros r Hr Hnot row Hin Heq. apply Hnot. rewrite <- Heq.
      apply (proj1 (Hkeys _)). unfold column_values. apply in_map_iff.
      exists row. auto.
    + intros row Hin. apply Hrow in Hin.
      destruct Hin as [m [r [Hm [Hr [Heq ->]]]]]. exists m, r. auto.
    + intros r Hr. rewrite Hkeys. split; [tauto|].
      intro H. split; auto. unfold column_values. apply in_map_iff.
      exists r. auto.
    + intro Hnd.
      assert (Hres : In "file" (columns (DataFrame_of_records results))).
      { destruct Hrec as [r0 [Hr0 Hk0]]. eapply records_columns; eauto. }
      destruct (@merge_on_file meta (DataFrame_of_records results)
                  Hfile Hres Hwf)
        as [out' [i [j' [Hm [Hi [Hj' [Hrows _]]]]]]].
      unfold Batch._construct_dataframe in Hc. rewrite Hmeta in Hc.
      assert (out' = out) by congruence. subst out'.
      assert (j' = j) by congruence. subst j'.
      rewrite Hrows.
      unfold column_values, cell_at in Hnd |- *. rewrite Hi in Hnd |- *.
      rewrite Hj. now apply merge_rows_count.
Qed.

End AssemblerClaims.

(** ** The claims on the controller *)

Section ControllerClaims.
Context `{SC : SurfaceClass} `{ENV : Environment}.

Lemma execute_all_error operations : forall s e,
  execute_all operations s = Err e -> e <> Batch.usage_error.
Proof.
  induction operations as [|o ops IH]; simpl; intros s e; [discriminate|].
  destruct (execute_on o s) as [s1|e1] eqn:E; simpl.
  - apply IH.
  - intros [= <-]. revert E. unfold execute_on, getattr_surface.
    destruct (Surface_method (op_identifier o)) as [m|]; simpl;
      [|intros [= <-]; discriminate].
    destruct (call m (op_args o) (op_kwargs o) s) as [[v s1]|]; simpl;
      [discriminate | intros [= <-]; discriminate].
Qed.

Lemma calculate_all_error parameters : forall s d e,
  calculate_all parameters s d = Err e -> e <> Batch.usage_error.
Proof.
  induction parameters as [|p ps IH]; simpl; intros s d e; [discriminate|].
  destruct (calculate_from p s) as [[r s1]|e1] eqn:E; simpl.
  - apply IH.
  - intros [= <-] ->. apply calculate_from_message in E. now apply E.
Qed.

Lemma _task_error filepath operations parameters t e t' :
  _task filepath operations parameters t = (Err e, t') -> e <> Batch.usage_error.
Proof.
  unfold _task, io_bind, io_access, io_lift, io_ret.
  destruct (Surface_load filepath) as [loaded|]; simpl;
    [|intros [= <- _]; discriminate].
  destruct (execute_all operations loaded) as [final|e1] eqn:Ho.
  - destruct (calculate_all parameters final _) as [[rec s']|e2] eqn:Hp.
    + discriminate.
    + intros [= <- _]. eapply calculate_all_error; eauto.
  - intros [= <- _]. eapply execute_all_error; eauto.
Qed.

Lemma run_tasks_error operations parameters filepaths : forall t e t',
  Batch.run_tasks filepaths operations parameters t = (Err e, t') ->
  e <> Batch.usage_error.
Proof.
  induction filepaths as [|f fs IH]; simpl; intros t e t';
    [discriminate|].
  unfold io_bind at 1.
  destruct (_task f operations parameters t) as [[r|e1] t1] eqn:Et.
  - unfold io_bind.
    destruct (Batch.run_tasks fs operations parameters t1)
      as [[rs|e2] t2] eqn:Er.
    + discriminate.
    + intros [= <- _]. eapply IH; eauto.
  - intros [= <- _]. eapply _task_error; eauto.
Qed.

(** C6.  With no operation and no parameter registered, [execute] raises
    the usage error and leaves the trace of file accesses as it was; with
    an operation or a parameter registered, it does not raise that
    error. *)
Theorem execute_requires_registration self multiprocessing saveto t :
  (Batch._operations self = [] ->
   Batch._parameters self = [] ->
   Batch.execute self multiprocessing saveto t = (Err Batch.usage_error, t)) /\
  (Batch._operations self <> [] \/ Batch._parameters self <> [] ->
   fst (Batch.execute self multiprocessing saveto t) <> Err Batch.usage_error).
Proof.
  unfold Batch.execute. split.
  - intros -> ->. reflexivity.
  - intro Hreg.
    assert (Hguard : Batch.is_empty (Batch._parameters self)
                     && Batch.is_empty (Batch._operations self) = false).
    { destruct Hreg as [H | H].
      - destruct (Batch._operations self); [congruence|].
        apply andb_false_r.
      - destruct (Batch._parameters self); [congruence | reflexivity]. }
    rewrite Hguard. unfold io_bind at 1.
    destruct (Batch._disptach_tasks self multiprocessing t)
      as [[results|e] t1] eqn:Ed.
    + unfold io_bind at 1, io_lift.
      destruct (Batch._construct_dataframe self results) as [df|e] eqn:Ec.
      * destruct saveto as [dst|]; [|discriminate].
        unfold io_bind, io_access, io_ret.
        destruct (to_excel df dst); simpl; discriminate.
      * simpl. revert Ec. unfold Batch._construct_dataframe.
        destruct (Batch._additional_data self) as [meta|]; [|discriminate].
        unfold merge.
        destruct (index_of "file" (columns meta)); [|intros [= <-]; discriminate].
        destruct (index_of "file" _); [discriminate|].
        intros [= <-]. discriminate.
    + simpl. intros [= ->]. revert Ed. unfold Batch._disptach_tasks.
      destruct multiprocessing; intro Ed;
        apply run_tasks_error in Ed; now apply Ed.
Qed.

(** C7.  For an identifier the ordinary lookup has not resolved, so that
    it is no instance attribute: when it is one of the available
    parameters, [__getattr__] returns a method which, called with any
    arguments, appends one [Parameter] with the identifier and exactly
    these arguments and returns the controller, otherwise unchanged; when
    it is not, [__getattr__] raises [AttributeError] with the message of
    a failed attribute lookup, as the lookup of a missing method on a
    surface does. *)
Theorem getattr_registers_available_parameter self attr :
  Batch.__dict__ self attr = None ->
  (In attr AVAILABLE_PARAMETERS ->
   exists f,
     Batch.__getattr__ self attr = Ok (Batch.AttrMethod f) /\
     forall args kwargs b,
       f args kwargs b =
       Batch.mk (Batch._filepaths b) (Batch._additional_data b)
                (Batch._operations b)
                (Batch._parameters b ++ [mkParameter attr args kwargs])) /\
  (~ In attr AVAILABLE_PARAMETERS ->
   Batch.__getattr__ self attr =
   Err (AttributeError (no_attribute "Batch" attr)) /\
   forall name,
     Surface_method name = None ->
     getattr_surface name =
     Err (AttributeError (no_attribute "Surface" name))).
Proof.
  intro Hdict. unfold Batch.__getattr__. rewrite Hdict. split.
  - intro Hin. apply mem_In in Hin. rewrite Hin. simpl.
    eexists. split; reflexivity.
  - intro Hnin. apply mem_not_In in Hnin. rewrite Hnin. simpl.
    split; auto. intros name Hname. unfold getattr_surface.
    now rewrite Hname.
Qed.

Lemma register_all entries : forall self,
  fold_left (fun self parameter =>
               Batch.register_parameter (Batch.as_parameter parameter) self)
            entries self =
  Batch.mk (Batch._filepaths self) (Batch._additional_data self)
           (Batch._operations self)
           (Batch._parameters self ++ map Batch.as_parameter entries).
Proof.
  induction entries as [|e entries IH]; simpl; intro self.
  - rewrite app_nil_r. now destruct self.
  - rewrite IH. simpl. now rewrite <- app_assoc.
Qed.

(** C8.  Called without a list, [roughness_parameters] appends one
    [Parameter] for each available identifier, in their order, with empty
    arguments; when the available identifiers are a set (none is listed
    twice), each is appended exactly once.  Called with a list, it
    appends, in the order of the list, a [Parameter] with empty arguments
    for a string and the given [Parameter] for a [Parameter].  Both
    return the controller, otherwise unchanged. *)
Theorem roughness_parameters_registers self :
  (NoDup AVAILABLE_PARAMETERS ->
   exists added,
     Batch.roughness_parameters None self =
     Batch.mk (Batch._filepaths self) (Batch._additional_data self)
              (Batch._operations self) (Batch._parameters self ++ added) /\
     map identifier added = AVAILABLE_PARAMETERS /\
     (forall p, In p added -> args p = [] /\ kwargs p = Dict.empty) /\
     (forall ident,
         In ident AVAILABLE_PARAMETERS ->
         count_occ string_dec (map identifier added) ident = 1%nat) /\
     (forall ident,
         ~ In ident AVAILABLE_PARAMETERS ->
         count_occ string_dec (map identifier added) ident = 0%nat)) /\
  (forall entries,
      exists added,
        Batch.roughness_parameters (Some entries) self =
        Batch.mk (Batch._filepaths self) (Batch._additional_data self)
                 (Batch._operations self) (Batch._parameters self ++ added) /\
        List.length added = List.length entries /\
        (forall i s,
            nth_error entries i = Some (Batch.EStr s) ->
            nth_error added i = Some (mkParameter s [] Dict.empty)) /\
        (forall i p,
            nth_error entries i = Some (Batch.EParameter p) ->
            nth_error added i = Some p)).
Proof.
  unfold Batch.roughness_parameters. split.
  - intro Hnd.
    exists (map Batch.as_parameter (map Batch.EStr AVAILABLE_PARAMETERS)).
    split; [apply register_all|].
    assert (Hid : map identifier
                    (map Batch.as_parameter
                         (map Batch.EStr AVAILABLE_PARAMETERS))
                  = AVAILABLE_PARAMETERS).
    { rewrite !map_map. simpl. apply map_id. }
    split; [exact Hid|]. split; [|split].
    + intros p Hp. rewrite map_map in Hp. apply in_map_iff in Hp.
      destruct Hp as [x [<- _]]. simpl. auto.
    + intros ident Hin. rewrite Hid.
      apply NoDup_count_occ' with (decA := string_dec); assumption.
    + intros ident Hnin. rewrite Hid. now apply count_occ_not_In.
  - intro entries. exists (map Batch.as_parameter entries).
    split; [apply register_all|]. split; [apply length_map|]. split.
    + intros i s Hi. now rewrite nth_error_map, Hi.
    + intros i p Hi. now rewrite nth_error_map, Hi.
Qed.

(** C9.  Without metadata, construction succeeds and reads no file.
    With metadata that is read as the table [df], construction raises
    [ValueError] exactly when [df] has no column 'file'; an exception of
    the reader itself passes through as it is. *)
Theorem init_requires_file_column filepaths t :
  (exists b, Batch.__init__ filepaths None t = (Ok b, t)) /\
  (forall src df,
      read_excel src = Returns df ->
      ((exists msg,
           fst (Batch.__init__ filepaths (Some src) t) = Err (ValueError msg))
       <-> ~ In "file" (columns df))) /\
  (forall src cls msg,
      read_excel src = Raises cls msg ->
      fst (Batch.__init__ filepaths (Some src) t) = Err (Raised cls msg)).
Proof.
  split; [|split].
  - eexists. reflexivity.
  - intros src df Hread. unfold Batch.__init__, io_bind, io_access.
    rewrite Hread. simpl.
    destruct (mem "file" (columns df)) eqn:E; simpl.
    + apply mem_In in E. split; [intros [msg H]; discriminate | tauto].
    + apply mem_not_In in E. split; eauto.
  - intros src cls msg Hread. unfold Batch.__init__, io_bind, io_access.
    now rewrite Hread.
Qed.

End ControllerClaims.

(** ** Runs on the small Surface class *)

Section DemoRuns.
Import Demo.

(** Two operations whose effects depend on the order give different
    records when they are registered in reverse order. *)
Example operations_order_matters :
  fst (_task a_ext [mkOperation "rotate" [PInt 1] []; mkOperation "zoom" [PInt 2] []]
             [default_parameter "Sa"] [])
  = Ok [("file", PStr "a.ext"); ("Sa", PInt 12)] /\
  fst (_task a_ext [mkOperation "zoom" [PInt 2] []; mkOperation "rotate" [PInt 1] []]
             [default_parameter "Sa"] [])
  = Ok [("file", PStr "a.ext"); ("Sa", PInt 11)].
Proof. split; reflexivity. Qed.

(** C1 as stated fails.  [Vmc] registered twice with different arguments:
    the first evaluation gives the entry [Vmc: 10], which the record does
    not hold.  A parameter named [file]: the record does not hold the
    filename under 'file'. *)
Lemma task_record_loses_entries :
  _task a_ext [] [Vmc 5; Vmc 9] []
  = (Ok [("file", PStr "a.ext"); ("Vmc", PInt 14)], [EvLoad a_ext]) /\
  Surface_load a_ext = Returns 5%Z /\
  calculate_from (Vmc 5) 5%Z = Ok ([("Vmc", PInt 10)], 5%Z) /\
  ~ In ("Vmc", PInt 10) [("file", PStr "a.ext"); ("Vmc", PInt 14)] /\
  _task a_ext [] [default_parameter "file"] []
  = (Ok [("file", PInt 7)], [EvLoad a_ext]) /\
  Path_name a_ext = "a.ext" /\
  Dict.get "file" [("file", PInt 7)] <> Some (PStr "a.ext").
Proof.
  repeat split; try reflexivity.
  - intros [H | [H | []]]; discriminate.
  - discriminate.
Qed.

Lemma task_runs_in_registration_order_witness :
  exists outs,
    runs_task a_ext [mkOperation "rotate" [PInt 1] []]
              [default_parameter "Sa"; default_parameter "extent"] outs
              [("file", PStr "a.ext"); ("Sa", PInt 6);
               ("extent_x", PInt 6); ("extent_y", PInt 12)].
Proof.
  destruct (proj1 (@task_runs_in_registration_order surface a_ext
                     [mkOperation "rotate" [PInt 1] []]
                     [default_parameter "Sa"; default_parameter "extent"]
                     [] _ _) eq_refl) as [_ [outs [H _]]].
  exists outs. exact H.
Defined.

Lemma calculate_from_result_mapping_witness :
  calculate_from (default_parameter "extent") 5%Z
  = Ok ([("extent_x", PInt 5); ("extent_y", PInt 10)], 5%Z).
Proof.
  destruct (proj2 (@calculate_from_result_mapping surface
                     (default_parameter "extent") 5%Z _ _ _ eq_refl eq_refl)
                  [PInt 5; PInt 10] ["x"; "y"] eq_refl (le_n 2) eq_refl eq_refl)
    as [d [Hc [_ [_ Hd]]]].
  rewrite Hc, Hd; [reflexivity|].
  repeat constructor; simpl; intuition discriminate.
Defined.

Lemma calculate_from_configuration_error_witness :
  (exists msg, calculate_from (default_parameter "pair") 5%Z
               = Err (BatchError msg)) /\
  (exists msg, calculate_from (default_parameter "triple") 5%Z
               = Err (BatchError msg)).
Proof.
  split.
  - apply (proj2 (proj1 (@calculate_from_configuration_error surface
                           (default_parameter "pair") 5%Z))).
    eexists. exists (PTuple [PInt 5; PInt 5]), 5%Z.
    split; [reflexivity|]. split; [reflexivity|]. split; [reflexivity|].
    left. reflexivity.
  - apply (proj2 (proj1 (@calculate_from_configuration_error surface
                           (default_parameter "triple") 5%Z))).
    eexists. exists (PTuple [PInt 5; PInt 5; PInt 5]), 5%Z.
    split; [reflexivity|]. split; [reflexivity|]. split; [reflexivity|].
    right. exists ["x"; "y"]. split; [reflexivity|]. simpl. lia.
Defined.

Lemma well_formed_meta : well_formed meta.
Proof. intros row [<- | [<- | []]]; reflexivity. Defined.

Lemma metadata_is_inner_joined_witness :
  exists out,
    Batch._construct_dataframe batch records = Ok out /\
    forall k,
      In k (column_values out "file") <->
      In k (column_values meta "file") /\
      In k (column_values (DataFrame_of_records records) "file").
Proof.
  destruct (@metadata_is_inner_joined batch records meta eq_refl
              (or_introl eq_refl) well_formed_meta
              (ex_intro _ _ (conj (or_introl eq_refl) (or_introl eq_refl))))
    as [out [j [H1 [_ [_ [H2 _]]]]]].
  exists out. split; [exact H1 | exact H2].
Defined.

(** C5 as stated fails.  The tasks of the three files return three
    records; the metadata has rows for [a.ext] and [b.ext] only, and the
    row of [c.ext] is not in the final table. *)
Lemma unmatched_result_row_is_dropped :
  fst (Batch._disptach_tasks batch false []) = Ok records /\
  In (Some (PStr "c.ext")) (column_values (DataFrame_of_records records) "file") /\
  Batch._construct_dataframe batch records
  = Ok (mkDataFrame ["file"; "thickness"; "Sa"; "Sq"]
          [[Some (PStr "a.ext"); Some (PInt 10); Some (PInt 5); Some (PInt 25)];
           [Some (PStr "b.ext"); Some (PInt 20); Some (PInt 5); Some (PInt 25)]]) /\
  ~ In (Some (PStr "c.ext"))
       (column_values
          (mkDataFrame ["file"; "thickness"; "Sa"; "Sq"]
             [[Some (PStr "a.ext"); Some (PInt 10); Some (PInt 5); Some (PInt 25)];
              [Some (PStr "b.ext"); Some (PInt 20); Some (PInt 5); Some (PInt 25)]])
          "file").
Proof.
  split; [reflexivity|]. split; [|split; [reflexivity|]].
  - right. right. left. reflexivity.
  - intros [H | [H | []]]; discriminate.
Qed.

Lemma result_rows_kept_when_matched_witness :
  exists out,
    Batch._construct_dataframe batch records = Ok out /\
    In [Some (PStr "a.ext"); Some (PInt 10); Some (PInt 5); Some (PInt 25)]
       (rows out) /\
    List.length (rows out) = 2%nat.
Proof.
  destruct (proj2 (@result_rows_kept_when_matched batch records) meta eq_refl
              (or_introl eq_refl) well_formed_meta
              (ex_intro _ _ (conj (or_introl eq_refl) (or_introl eq_refl))))
    as [out [j [Hc [Hj [Hkeep [_ [_ [_ Hcount]]]]]]]].
  exists out. split; [exact Hc|].
  vm_compute in Hj. injection Hj as <-. split.
  - apply (Hkeep [Some (PStr "a.ext"); Some (PInt 5); Some (PInt 25)]
                 [Some (PStr "a.ext"); Some (PInt 10)]).
    + left. reflexivity.
    + left. reflexivity.
    + reflexivity.
  - rewrite Hcount; [reflexivity|].
    repeat constructor; simpl; intuition discriminate.
Defined.

Lemma execute_requires_registration_witness :
  Batch.execute idle true (Some "out.xlsx") [] = (Err Batch.usage_error, []) /\
  fst (Batch.execute batch true (Some "out.xlsx") []) <> Err Batch.usage_error.
Proof.
  split.
  - exact (proj1 (@execute_requires_registration surface environment
                    idle true (Some "out.xlsx") []) eq_refl eq_refl).
  - apply (proj2 (@execute_requires_registration surface environment
                    batch true (Some "out.xlsx") [])).
    right. discriminate.
Defined.

Lemma getattr_registers_available_parameter_witness :
  (exists f,
      Batch.__getattr__ idle "Vmc" = Ok (Batch.AttrMethod f) /\
      Batch._parameters (f [PInt 5] [] idle) = [Vmc 5]) /\
  Batch.__getattr__ idle "level"
  = Err (AttributeError "'Batch' object has no attribute 'level'").
Proof.
  split.
  - destruct (proj1 (@getattr_registers_available_parameter surface
                       idle "Vmc" eq_refl))
      as [f [Hf Hcall]].
    + right. right. left. reflexivity.
    + exists f. split; [exact Hf|]. rewrite Hcall. reflexivity.
  - apply (proj2 (@getattr_registers_available_parameter surface
                    idle "level" eq_refl)).
    simpl. intuition discriminate.
Defined.

Lemma roughness_parameters_registers_witness :
  Batch._parameters (Batch.roughness_parameters None idle)
  = [default_parameter "Sa"; default_parameter "Sq";
     default_parameter "Vmc"; default_parameter "extent"] /\
  Batch._parameters
    (Batch.roughness_parameters
       (Some [Batch.EStr "Sa"; Batch.EParameter (Vmc 5)]) idle)
  = [default_parameter "Sa"; Vmc 5].
Proof.
  split.
  - destruct (proj1 (@roughness_parameters_registers surface idle))
      as [added [Hr _]].
    + repeat constructor; simpl; intuition discriminate.
    + reflexivity.
  - destruct (proj2 (@roughness_parameters_registers surface idle)
                    [Batch.EStr "Sa"; Batch.EParameter (Vmc 5)])
      as [added [Hr _]].
    reflexivity.
Defined.

Lemma init_requires_file_column_witness :
  (exists msg,
      fst (Batch.__init__ files (Some "plain.xlsx") []) = Err (ValueError msg)) /\
  ~ (exists msg,
        fst (Batch.__init__ files (Some "meta.xlsx") []) = Err (ValueError msg)).
Proof.
  split.
  - apply (proj2 (proj1 (proj2 (@init_requires_file_column environment files []))
                    "plain.xlsx" plain eq_refl)).
    simpl. intuition discriminate.
  - intro H.
    apply (proj1 (proj1 (proj2 (@init_requires_file_column environment files []))
                    "meta.xlsx" meta eq_refl)) in H.
    apply H. left. reflexivity.
Defined.

Lemma later_parameter_overwrites_witness :
  _task a_ext [] [Vmc 5; Vmc 9] []
  = (Ok [("file", PStr "a.ext"); ("Vmc", PInt 14)], [EvLoad a_ext]) /\
  NoDup (Dict.keys [("file", PStr "a.ext"); ("Vmc", PInt 14)]).
Proof.
  split; [reflexivity|].
  exact (proj1 (@later_parameter_overwrites surface a_ext [] [Vmc 5; Vmc 9]
                  [] _ _ eq_refl)).
Defined.

End DemoRuns.


(* ------------------------------------------------------------------ *)
(** * Further properties of the task *)

Section TaskProperties.
Context `{SC : SurfaceClass}.

(** X1.  Replaying a pipeline that is the concatenation of two lists of
    operations is replaying the first list and then the second on the
    state the first left; when the first list fails, the second is not
    run. *)
Theorem execute_all_app operations1 operations2 s :
  execute_all (operations1 ++ operations2) s =
  (s1 <- execute_all operations1 s ;; execute_all operations2 s1).
Proof.
  revert s. induction operations1 as [|o ops IH]; intro s; simpl; auto.
  destruct (execute_on o s) as [s1|e]; simpl; auto.
Qed.

Lemma _task_split filepath operations parameters t :
  _task filepath operations parameters t =
  (fst (_task filepath operations parameters []), t ++ [EvLoad filepath]).
Proof.
  unfold _task, io_bind, io_access, io_lift, io_ret.
  destruct (Surface_load filepath) as [loaded|]; simpl; auto.
  destruct (execute_all operations loaded) as [final|]; auto.
  destruct (calculate_all parameters final _) as [[rec s']|]; auto.
Qed.

(** X2.  Whether it returns or raises, and whatever was read before, the
    task reads exactly one file, the one it is given. *)
Theorem task_reads_its_file filepath operations parameters t :
  snd (_task filepath operations parameters t) = t ++ [EvLoad filepath] /\
  forall p, In (EvLoad p) (snd (_task filepath operations parameters t)) ->
            In (EvLoad p) t \/ p = filepath.
Proof.
  rewrite _task_split. simpl. split; auto.
  intros p Hin. apply in_app_or in Hin. destruct Hin as [H | [H | []]]; auto.
  right. congruence.
Qed.

Lemma execute_on_error o s e :
  execute_on o s = Err e ->
  (Surface_method (op_identifier o) = None /\
   e = AttributeError (no_attribute "Surface" (op_identifier o))) \/
  exists cls msg, e = Raised cls msg.
Proof.
  unfold execute_on, getattr_surface.
  destruct (Surface_method (op_identifier o)) as [m|]; simpl.
  - destruct (call m (op_args o) (op_kwargs o) s) as [[v s1]|cls msg]; simpl;
      [discriminate|]. intros [= <-]. right. eauto.
  - intros [= <-]. left. auto.
Qed.

Lemma calculate_from_error p s e :
  calculate_from p s = Err e ->
  (Surface_method (identifier p) = None /\
   e = AttributeError (no_attribute "Surface" (identifier p))) \/
  (exists cls msg, e = Raised cls msg) \/
  e = BatchError (no_labels_message (identifier p)) \/
  e = BatchError label_count_message.
Proof.
  unfold calculate_from, getattr_surface.
  destruct (Surface_method (identifier p)) as [m|]; simpl.
  - destruct (call m (args p) (kwargs p) s) as [[v s1]|cls msg]; simpl.
    + destruct (is_list_like v); [|discriminate].
      destruct (return_labels m); simpl.
      * destruct (negb _); [|discriminate]. intros [= <-]. auto.
      * intros [= <-]. auto.
    + intros [= <-]. right. left. eauto.
  - intros [= <-]. left. auto.
Qed.

(** X3.  An exception of the task is one of four: an exception raised
    inside the Surface class, the [AttributeError] for a registered
    identifier that is no method of the surface, the [BatchError] for a
    registered parameter without return labels, or the [BatchError] for a
    label count that does not match. *)
Theorem task_error_kinds filepath operations parameters t e t' :
  _task filepath operations parameters t = (Err e, t') ->
  (exists cls msg, e = Raised cls msg) \/
  (exists ident,
      (In ident (map op_identifier operations) \/
       In ident (map identifier parameters)) /\
      Surface_method ident = None /\
      e = AttributeError (no_attribute "Surface" ident)) \/
  (exists p, In p parameters /\
             e = BatchError (no_labels_message (identifier p))) \/
  e = BatchError label_count_message.
Proof.
  unfold _task, io_bind, io_access, io_lift, io_ret.
  destruct (Surface_load filepath) as [loaded|cls msg]; simpl;
    [|intros [= <- _]; left; eauto].
  destruct (execute_all operations loaded) as [final|e1] eqn:Ho.
  - destruct (calculate_all parameters final _) as [[rec s']|e2] eqn:Hp;
      [discriminate|].
    intros [= <- _]. clear Ho. revert Hp.
    generalize [("file", PStr (Path_name filepath))]. revert final.
    induction parameters as [|p ps IH]; simpl; intros s d; [discriminate|].
    destruct (calculate_from p s) as [[r s1]|e1] eqn:E; simpl.
    + intro H. apply IH in H.
      destruct H as [H | [[ident [[H1 | H1] [H2 H3]]] | [[q [Hq He]] | H]]];
        eauto 8; right; right; left; exists q; auto.
    + intros [= <-]. apply calculate_from_error in E.
      destruct E as [[H1 H2] | [H | [H | H]]]; auto;
        [right; left; exists (identifier p); auto
        |right; right; left; exists p; auto].
  - intros [= <- _]. revert Ho. generalize loaded.
    induction operations as [|o ops IH]; simpl; intro s; [discriminate|].
    destruct (execute_on o s) as [s1|e0] eqn:E; simpl.
    + intro H. apply IH in H.
      destruct H as [H | [[ident [[H1 | H1] [H2 H3]]] | H]]; eauto 8.
    + intros [= <-]. apply execute_on_error in E.
      destruct E as [[H1 H2] | H]; auto;
        right; left; exists (op_identifier o); auto.
Qed.

Lemma set_keeps_head k v k0 v0 (d : Dict.t) :
  exists v1 rest, Dict.set k v ((k0, v0) :: d) = (k0, v1) :: rest.
Proof. simpl. destruct (String.eqb k k0); eauto. Qed.

Lemma update_keeps_head (other : Dict.t) : forall k0 v0 (d : Dict.t),
  exists v1 rest, Dict.update ((k0, v0) :: d) other = (k0, v1) :: rest.
Proof.
  unfold Dict.update.
  induction other as [|[k v] other IH]; intros k0 v0 d; simpl; eauto.
  destruct (String.eqb k k0); apply IH.
Qed.

(** X4.  The first entry of the record of a task has the key 'file',
    whatever the parameters produce. *)
Theorem task_record_starts_with_file filepath operations parameters t record t' :
  _task filepath operations parameters t = (Ok record, t') ->
  exists v rest, record = ("file", v) :: rest.
Proof.
  intro H. apply _task_runs in H.
  destruct H as [_ [outs [loaded [ostates [final [pstates H]]]]]].
  destruct H as [_ [_ [_ [_ [_ [_ ->]]]]]].
  generalize (PStr (Path_name filepath)) (@nil (string * pyval)).
  induction outs as [|r outs IH]; intros v0 d; simpl; eauto.
  destruct (update_keeps_head r "file" v0 d) as [v1 [rest ->]]. apply IH.
Qed.

End TaskProperties.

Section RecordProperties.
Context `{SC : SurfaceClass}.

Lemma calculate_all_scalar parameters : forall s d record s',
  calculate_all parameters s d = Ok (record, s') ->
  scalar_valued parameters ->
  NoDup (Dict.keys d ++ map identifier parameters) ->
  exists values,
    List.length values = List.length parameters /\
    record = d ++ combine (map identifier parameters) values.
Proof.
  induction parameters as [|p ps IH]; simpl; intros s d record s' H Hsc Hnd.
  - injection H as <- _. exists []. now rewrite app_nil_r.
  - destruct (calculate_from p s) as [[r s1]|] eqn:E; simpl in H;
      [|discriminate].
    destruct (calculate_from_Ok _ _ E) as [m [v [Hm Hc]]].
    rewrite (calculate_from_returned _ _ Hm Hc) in E.
    rewrite (Hsc p m _ _ _ _ _ (or_introl eq_refl) Hm Hc) in E.
    injection E as <-.
    assert (Hset : Dict.update d [(identifier p, v)] = d ++ [(identifier p, v)]).
    { unfold Dict.update. simpl. apply set_absent.
      apply NoDup_remove_2 in Hnd. intro Hin. apply Hnd.
      apply in_or_app. now left. }
    rewrite Hset in H. apply IH in H.
    + destruct H as [values [Hlen ->]]. exists (v :: values). split.
      * simpl. now rewrite Hlen.
      * now rewrite <- app_assoc.
    + intros q m' a k s0 v0 s0' Hq. apply Hsc. now right.
    + unfold Dict.keys in *. rewrite map_app, <- app_assoc. exact Hnd.
Qed.

(** X5.  When every registered parameter returns a scalar and the
    identifiers are distinct and none is 'file', the record of a task is
    the filename under 'file' followed by one entry per parameter, under
    its identifier, in registration order. *)
Theorem task_record_of_scalar_parameters
    filepath operations parameters t record t' :
  _task filepath operations parameters t = (Ok record, t') ->
  scalar_valued parameters ->
  NoDup ("file" :: map identifier parameters) ->
  exists values,
    List.length values = List.length parameters /\
    record = ("file", PStr (Path_name filepath))
               :: combine (map identifier parameters) values.
Proof.
  unfold _task, io_bind, io_access, io_lift, io_ret.
  destruct (Surface_load filepath) as [loaded|]; simpl; [|discriminate].
  destruct (execute_all operations loaded) as [final|]; [|discriminate].
  destruct (calculate_all parameters final _) as [[rec s']|] eqn:Hp;
    [|discriminate].
  intros [= <- _] Hsc Hnd.
  destruct (@calculate_all_scalar _ _ _ _ _ Hp Hsc Hnd) as [values [Hlen ->]].
  exists values. auto.
Qed.

End RecordProperties.

(* ------------------------------------------------------------------ *)
(** * Further properties of the dispatch and of the execution *)

Section DispatchProperties.
Context `{SC : SurfaceClass} `{ENV : Environment}.

Lemma run_tasks_Ok operations parameters filepaths : forall t results t',
  Batch.run_tasks filepaths operations parameters t = (Ok results, t') <->
  Forall2 (task_returns operations parameters) filepaths results /\
  t' = t ++ map EvLoad filepaths.
Proof.
  unfold task_returns.
  induction filepaths as [|f fs IH]; intros t results t'; simpl.
  - unfold io_ret. split.
    + intros [= <- <-]. split; [constructor | now rewrite app_nil_r].
    + intros [H ->]. inversion H. now rewrite app_nil_r.
  - unfold io_bind at 1. rewrite _task_split.
    destruct (fst (_task f operations parameters [])) as [r|e] eqn:Ef.
    + unfold io_bind.
      destruct (Batch.run_tasks fs operations parameters (t ++ [EvLoad f]))
        as [[rs|e] t1] eqn:Er.
      * apply IH in Er. destruct Er as [Hrs ->]. unfold io_ret. split.
        -- intros [= <- <-]. split; [constructor; auto|].
           now rewrite <- app_assoc.
        -- intros [H ->]. inversion H as [|? r' ? rs' Hr Hrs']; subst.
           rewrite <- app_assoc. simpl.
           assert (r' = r) by congruence. subst.
           assert (Hx : Batch.run_tasks fs operations parameters
                          (t ++ [EvLoad f])
                        = (Ok rs', (t ++ [EvLoad f]) ++ map EvLoad fs))
             by (apply IH; auto).
           rewrite <- app_assoc in Hx. simpl in Hx.
           assert (rs' = rs).
           { apply IH in Hx. destruct Hx as [Hx _].
             clear - Hrs Hx. revert rs Hrs.
             induction Hx; intros rs0 H0; inversion H0; subst; auto.
             f_equal; [congruence | auto]. }
           now subst.
      * split; [discriminate|]. intros [H ->].
        inversion H as [|? r' ? rs' Hr Hrs']; subst.
        assert (Hx : Batch.run_tasks fs operations parameters
                       (t ++ [EvLoad f])
                     = (Ok rs', (t ++ [EvLoad f]) ++ map EvLoad fs))
          by (apply IH; auto).
        congruence.
    + split; [discriminate|]. intros [H _].
      inversion H; subst. congruence.
Qed.

(** X6.  Sequential dispatch returns the records exactly when the task of
    every file returns one: the records are then those of the files, in
    the order of the file list, and the files were read in that order. *)
Theorem sequential_dispatch_in_file_order self t results t' :
  Batch._disptach_tasks self false t = (Ok results, t') <->
  Forall2 (task_returns (Batch._operations self) (Batch._parameters self))
          (Batch._filepaths self) results /\
  t' = t ++ map EvLoad (Batch._filepaths self).
Proof. unfold Batch._disptach_tasks. apply run_tasks_Ok. Qed.

Lemma run_tasks_fails_fast operations parameters before : forall filepath after t e,
  Forall (fun f => exists r, task_returns operations parameters f r) before ->
  fst (_task filepath operations parameters []) = Err e ->
  Batch.run_tasks (before ++ filepath :: after) operations parameters t =
  (Err e, t ++ map EvLoad (before ++ [filepath])).
Proof.
  unfold task_returns.
  induction before as [|f fs IH]; intros filepath after t e Hok Herr; simpl.
  - unfold io_bind. rewrite _task_split, Herr. reflexivity.
  - inversion Hok as [|? ? [r Hr] Hfs]; subst.
    unfold io_bind at 1. rewrite _task_split, Hr.
    unfold io_bind. rewrite (IH filepath after _ e Hfs Herr).
    now rewrite <- app_assoc.
Qed.

(** X7.  Sequential dispatch stops at the first file whose task raises:
    the exception of that task is the exception of the dispatch, and the
    files after it are not read. *)
Theorem sequential_dispatch_fails_fast self before filepath after t e :
  Batch._filepaths self = before ++ filepath :: after ->
  Forall (fun f => exists r,
              task_returns (Batch._operations self) (Batch._parameters self) f r)
         before ->
  fst (_task filepath (Batch._operations self) (Batch._parameters self) [])
  = Err e ->
  Batch._disptach_tasks self false t =
  (Err e, t ++ map EvLoad (before ++ [filepath])).
Proof.
  intros Hf Hok Herr. unfold Batch._disptach_tasks. rewrite Hf.
  now apply run_tasks_fails_fast.
Qed.

(** X8.  When sequential dispatch returns records, dispatch over the pool
    returns records too, and they are the same records up to their
    order. *)
Theorem parallel_dispatch_permutes self t results t1 :
  Batch._disptach_tasks self false t = (Ok results, t1) ->
  exists results' t2,
    Batch._disptach_tasks self true t = (Ok results', t2) /\
    Permutation results results'.
Proof.
  intro H. unfold Batch._disptach_tasks in H. apply run_tasks_Ok in H.
  destruct H as [Hall _].
  destruct (Permutation_Forall2
              (Permutation_sym (imap_unordered_perm (Batch._filepaths self)))
              Hall) as [results' [Hperm Hall']].
  exists results', (t ++ map EvLoad (imap_unordered (Batch._filepaths self))).
  split; auto. unfold Batch._disptach_tasks. apply run_tasks_Ok. auto.
Qed.

End DispatchProperties.

Section ExecuteProperties.
Context `{SC : SurfaceClass} `{ENV : Environment}.

Lemma imap_unordered_nil : imap_unordered [] = [].
Proof.
  apply Permutation_nil, Permutation_sym, imap_unordered_perm.
Qed.

Lemma dispatch_Ok self multiprocessing t results t' :
  Batch._disptach_tasks self multiprocessing t = (Ok results, t') ->
  let order := if multiprocessing
               then imap_unordered (Batch._filepaths self)
               else Batch._filepaths self in
  Forall2 (task_returns (Batch._operations self) (Batch._parameters self))
          order results /\
  t' = t ++ map EvLoad order.
Proof.
  unfold Batch._disptach_tasks. destruct multiprocessing; apply run_tasks_Ok.
Qed.

Lemma execute_Ok self multiprocessing saveto t df t' :
  Batch.execute self multiprocessing saveto t = (Ok df, t') ->
  let order := if multiprocessing
               then imap_unordered (Batch._filepaths self)
               else Batch._filepaths self in
  exists results,
    Forall2 (task_returns (Batch._operations self) (Batch._parameters self))
            order results /\
    Batch._construct_dataframe self results = Ok df /\
    t' = t ++ map EvLoad order
           ++ match saveto with
              | Some dst => [EvWriteExcel dst]
              | None => []
              end.
Proof.
  cbv zeta. unfold Batch.execute.
  destruct (_ && _); [discriminate|]. unfold io_bind at 1.
  destruct (Batch._disptach_tasks self multiprocessing t)
    as [[results|e] t1] eqn:Ed; [|discriminate].
  apply dispatch_Ok in Ed. cbv zeta in Ed. destruct Ed as [Hall ->].
  unfold io_bind at 1, io_lift.
  destruct (Batch._construct_dataframe self results) as [df'|e] eqn:Ec;
    [|discriminate].
  destruct saveto as [dst|].
  - unfold io_bind, io_access, io_ret.
    destruct (to_excel df' dst); simpl; [|discriminate].
    intros [= <- <-]. exists results.
    split; auto. split; auto. now rewrite <- app_assoc.
  - unfold io_ret. intros [= <- <-]. exists results.
    split; auto. split; auto. now rewrite app_nil_r.
Qed.

(** X9.  When sequential [execute] returns a table, the task of every
    file returned a record, the table is built from these records in the
    order of the files, and the files it touched are the measurement
    files, each once and in their order, and after them the target of
    [saveto] when one is given. *)
Theorem execute_file_accesses self saveto t df t' :
  Batch.execute self false saveto t = (Ok df, t') ->
  exists results,
    Forall2 (task_returns (Batch._operations self) (Batch._parameters self))
            (Batch._filepaths self) results /\
    Batch._construct_dataframe self results = Ok df /\
    t' = t ++ map EvLoad (Batch._filepaths self)
           ++ match saveto with
              | Some dst => [EvWriteExcel dst]
              | None => []
              end.
Proof. intro H. apply execute_Ok in H. exact H. Qed.

(** X10.  A controller that was just constructed has nothing registered:
    executing it raises, with the usage error when the construction
    succeeded, and no measurement file is read and nothing is written. *)
Theorem execute_after_init_raises filepaths additional_data
    multiprocessing saveto t :
  exists e,
    io_bind (Batch.__init__ filepaths additional_data)
            (fun b => Batch.execute b multiprocessing saveto) t
    = (Err e, t ++ match additional_data with
                   | Some src => [EvReadExcel src]
                   | None => []
                   end) /\
    ((exists b t1, Batch.__init__ filepaths additional_data t = (Ok b, t1)) ->
     e = Batch.usage_error).
Proof.
  unfold io_bind at 1, Batch.__init__.
  destruct additional_data as [src|].
  - unfold io_bind, io_access.
    destruct (read_excel src) as [df|cls msg]; simpl.
    + destruct (mem "file" (columns df)); simpl.
      * exists Batch.usage_error. split; auto.
      * eexists. split; [reflexivity|]. intros [b [t1 H]]. discriminate.
    + eexists. split; [reflexivity|]. intros [b [t1 H]]. discriminate.
  - simpl. exists Batch.usage_error. rewrite app_nil_r. split; auto.
Qed.

(** X15.  With metadata and an empty file list, a controller with
    something registered does not return an empty table: the table of the
    records has no column 'file', and the merge raises [KeyError] before
    anything is read or written. *)
Theorem execute_without_files_and_with_metadata
    self meta multiprocessing saveto t :
  Batch._filepaths self = [] ->
  Batch._additional_data self = Some meta ->
  Batch._operations self <> [] \/ Batch._parameters self <> [] ->
  Batch.execute self multiprocessing saveto t = (Err (KeyError "file"), t).
Proof.
  intros Hf Hm Hreg. unfold Batch.execute.
  assert (Hguard : Batch.is_empty (Batch._parameters self)
                   && Batch.is_empty (Batch._operations self) = false).
  { destruct Hreg as [H | H].
    - destruct (Batch._operations self); [congruence|]. apply andb_false_r.
    - destruct (Batch._parameters self); [congruence | reflexivity]. }
  rewrite Hguard. unfold io_bind at 1, Batch._disptach_tasks.
  rewrite Hf, imap_unordered_nil.
  destruct multiprocessing; simpl; unfold io_bind, io_lift, io_ret;
    unfold Batch._construct_dataframe; rewrite Hm; unfold merge; simpl;
    destruct (index_of "file" (columns meta)); reflexivity.
Qed.

End ExecuteProperties.

(* ------------------------------------------------------------------ *)
(** * Further properties of the registration *)

Section RegistrationProperties.
Context `{SC : SurfaceClass}.

Lemma call_operation_method_registers c self :
  exists o,
    call_operation_method c self = Batch.register_operation o self /\
    op_identifier o = method_name c /\
    Dict.get "inplace" (op_kwargs o) = Some (PBool true).
Proof.
  destruct c; eexists; (split; [reflexivity|]); split; reflexivity.
Qed.

Lemma call_chain_registers calls : forall self,
  exists operations,
    call_chain calls self =
    Batch.mk (Batch._filepaths self) (Batch._additional_data self)
             (Batch._operations self ++ operations) (Batch._parameters self) /\
    map op_identifier operations = map method_name calls /\
    Forall (fun o => Dict.get "inplace" (op_kwargs o) = Some (PBool true))
           operations.
Proof.
  unfold call_chain.
  induction calls as [|c calls IH]; intro self; simpl.
  - exists []. rewrite app_nil_r. split; [now destruct self | split; auto].
  - destruct (call_operation_method_registers c self) as [o [-> [Hid Hin]]].
    destruct (IH (Batch.register_operation o self))
      as [ops [-> [Hids Hall]]].
    exists (o :: ops). simpl. rewrite <- app_assoc. split; auto.
    split; [congruence | constructor; auto].
Qed.

(** X11.  A chain of calls of the methods that register operations
    appends one operation per call, in the order of the calls; each has
    the name of the method as its identifier and [inplace=True] among its
    keyword arguments; the files, the metadata and the parameters of the
    controller stay as they were. *)
Theorem operation_methods_register calls self :
  exists operations,
    call_chain calls self =
    Batch.mk (Batch._filepaths self) (Batch._additional_data self)
             (Batch._operations self ++ operations) (Batch._parameters self) /\
    map op_identifier operations = map method_name calls /\
    Forall (fun o => Dict.get "inplace" (op_kwargs o) = Some (PBool true))
           operations.
Proof. apply call_chain_registers. Qed.

Lemma call_operation_method_commutes c p self :
  call_operation_method c (Batch.register_parameter p self) =
  Batch.register_parameter p (call_operation_method c self).
Proof. destruct c; reflexivity. Qed.

Lemma call_operation_method_fold c (entries : list Batch.entry) : forall self,
  call_operation_method c
    (fold_left (fun self parameter =>
                  Batch.register_parameter (Batch.as_parameter parameter) self)
               entries self) =
  fold_left (fun self parameter =>
               Batch.register_parameter (Batch.as_parameter parameter) self)
            entries (call_operation_method c self).
Proof.
  induction entries as [|e entries IH]; intro self; simpl; auto.
  now rewrite IH, call_operation_method_commutes.
Qed.

(** X12.  Operations and parameters are kept apart: registering
    parameters before a chain of operations gives the same controller as
    registering them after it, so a parameter registered first is still
    evaluated on the surface all operations have been applied to. *)
Theorem parameters_and_operations_commute calls parameters self :
  Batch.roughness_parameters parameters (call_chain calls self) =
  call_chain calls (Batch.roughness_parameters parameters self).
Proof.
  unfold Batch.roughness_parameters, call_chain.
  revert self. induction calls as [|c calls IH]; intro self; simpl; auto.
  now rewrite IH, call_operation_method_fold.
Qed.

(** X13.  Calling an available parameter on the controller registers
    what the bulk registration of that one parameter registers: without
    arguments it is [roughness_parameters] of the identifier, with
    arguments it is [roughness_parameters] of the [Parameter] with these
    arguments. *)
Theorem dynamic_call_is_bulk_registration self attr :
  Batch.__dict__ self attr = None ->
  In attr AVAILABLE_PARAMETERS ->
  exists f,
    Batch.__getattr__ self attr = Ok (Batch.AttrMethod f) /\
    f [] Dict.empty self =
    Batch.roughness_parameters (Some [Batch.EStr attr]) self /\
    forall a k,
      f a k self =
      Batch.roughness_parameters
        (Some [Batch.EParameter (mkParameter attr a k)]) self.
Proof.
  intros Hdict Hin. unfold Batch.__getattr__. rewrite Hdict.
  apply mem_In in Hin. rewrite Hin. simpl.
  eexists. split; [reflexivity|]. split; reflexivity.
Qed.

(** X14.  Bulk registrations compose: registering a list that is the
    concatenation of two lists is registering the first and then the
    second; the empty list registers nothing; no list at all is the list
    of all available identifiers. *)
Theorem roughness_parameters_compose self :
  (forall l1 l2,
      Batch.roughness_parameters (Some (l1 ++ l2)) self =
      Batch.roughness_parameters (Some l2)
        (Batch.roughness_parameters (Some l1) self)) /\
  Batch.roughness_parameters (Some []) self = self /\
  Batch.roughness_parameters None self =
  Batch.roughness_parameters (Some (map Batch.EStr AVAILABLE_PARAMETERS)) self.
Proof.
  unfold Batch.roughness_parameters. split; [|split]; auto.
  intros l1 l2. apply fold_left_app.
Qed.

End RegistrationProperties.


(* ------------------------------------------------------------------ *)
(** * Further properties of the assembled table *)

Section AssemblerProperties.
Context `{SC : SurfaceClass} `{ENV : Environment}.

Lemma cell_at_map (f : string -> cell) c cols :
  cell_at cols (map f cols) c = if mem c cols then f c else None.
Proof.
  unfold cell_at, mem.
  induction cols as [|c' cols IH]; simpl; auto.
  destruct (String.eqb c c') eqn:E; simpl.
  - apply String.eqb_eq in E. now subst.
  - destruct (index_of c cols) as [i|]; simpl in *; auto.
Qed.

Lemma add_columns_extends (d : Dict.t) : forall cols,
  exists l, add_columns cols d = cols ++ l.
Proof.
  unfold add_columns.
  induction (Dict.keys d) as [|k ks IH]; intro cols; simpl.
  - exists []. now rewrite app_nil_r.
  - destruct (mem k cols); [apply IH|].
    destruct (IH (cols ++ [k])) as [l ->]. exists (k :: l).
    now rewrite <- app_assoc.
Qed.

Lemma fold_add_columns_extends (results : list Dict.t) : forall cols,
  exists l, fold_left add_columns results cols = cols ++ l.
Proof.
  induction results as [|r results IH]; intro cols; simpl.
  - exists []. now rewrite app_nil_r.
  - destruct (add_columns_extends r cols) as [l1 ->].
    destruct (IH (cols ++ l1)) as [l2 ->]. exists (l1 ++ l2).
    now rewrite app_assoc.
Qed.

Lemma fold_update_keeps_head (outs : list Dict.t) : forall k0 v0 (d : Dict.t),
  exists v rest, fold_left Dict.update outs ((k0, v0) :: d) = (k0, v) :: rest.
Proof.
  induction outs as [|o outs IH]; intros k0 v0 d; simpl; eauto.
  destruct (update_keeps_head o k0 v0 d) as [v1 [rest ->]]. apply IH.
Qed.

(** The table of the records: a row per record, a cell per column, and
    the cell of a column is the entry of the record under that key. *)
Lemma records_table results :
  List.length (rows (DataFrame_of_records results)) = List.length results /\
  well_formed (DataFrame_of_records results) /\
  forall i r,
    nth_error results i = Some r ->
    exists row,
      nth_error (rows (DataFrame_of_records results)) i = Some row /\
      forall c, cell_at (columns (DataFrame_of_records results)) row c
                = Dict.get c r.
Proof.
  split; [|split].
  - simpl. apply length_map.
  - intros row Hrow. simpl in Hrow. apply in_map_iff in Hrow.
    destruct Hrow as [r [<- _]]. simpl. apply length_map.
  - intros i r Hi. eexists. split.
    + simpl. rewrite nth_error_map, Hi. reflexivity.
    + intro c. change (fold_left add_columns results [])
        with (columns (DataFrame_of_records results)).
      rewrite cell_at_map.
      destruct (mem c (columns (DataFrame_of_records results))) eqn:E; auto.
      symmetry. apply get_None_keys. intro Hk.
      apply mem_not_In in E. apply E.
      eapply records_columns; eauto. eapply nth_error_In; eauto.
Qed.

(** X16.  Without metadata the final table is built from the records
    alone: it has one row per record, in their order, every row has a cell
    for every column, and the cell in the column of a key is the entry of
    the record under that key, missing when the record has none. *)
Theorem construct_dataframe_without_metadata self results :
  Batch._additional_data self = None ->
  exists df,
    Batch._construct_dataframe self results = Ok df /\
    List.length (rows df) = List.length results /\
    well_formed df /\
    forall i r,
      nth_error results i = Some r ->
      exists row,
        nth_error (rows df) i = Some row /\
        forall c, cell_at (columns df) row c = Dict.get c r.
Proof.
  intro H. exists (DataFrame_of_records results).
  unfold Batch._construct_dataframe. rewrite H. split; auto.
  apply records_table.
Qed.

(** X17.  Without metadata, the table [execute] returns has exactly one
    row per file of the controller, and, when there is a file, 'file' is
    its first column. *)
Theorem execute_without_metadata_one_row_per_file
    self multiprocessing saveto t df t' :
  Batch._additional_data self = None ->
  Batch.execute self multiprocessing saveto t = (Ok df, t') ->
  List.length (rows df) = List.length (Batch._filepaths self) /\
  well_formed df /\
  (Batch._filepaths self <> [] -> hd_error (columns df) = Some "file").
Proof.
  intros Hnone H. apply execute_Ok in H. cbv zeta in H.
  destruct H as [results [Hall [Hc _]]].
  unfold Batch._construct_dataframe in Hc. rewrite Hnone in Hc.
  injection Hc as <-.
  assert (Hlen : List.length results = List.length (Batch._filepaths self)).
  { apply Forall2_length in Hall. rewrite <- Hall.
    destruct multiprocessing; auto.
    apply Permutation_length, imap_unordered_perm. }
  destruct (records_table results) as [Hrows [Hwf _]].
  split; [congruence|]. split; auto.
  intro Hne. destruct results as [|r results].
  - destruct (Batch._filepaths self); [congruence | discriminate].
  - assert (Hr : exists f, task_returns (Batch._operations self)
                             (Batch._parameters self) f r).
    { inversion Hall; subst. eauto. }
    destruct Hr as [f Hr]. unfold task_returns in Hr.
    destruct (_task f (Batch._operations self) (Batch._parameters self) [])
      as [res t1] eqn:Et. simpl in Hr. subst res.
    apply _task_runs in Et.
    destruct Et as [_ [outs [loaded [ostates [final [pstates Hrun]]]]]].
    destruct Hrun as [_ [_ [_ [_ [_ [_ Hrec]]]]]].
    assert (Hhead : exists v rest, r = ("file", v) :: rest)
      by (subst r; apply fold_update_keeps_head).
    destruct Hhead as [v [rest ->]]. simpl.
    unfold add_columns at 2. simpl.
    destruct (add_columns_extends
                (("file", v) :: rest) []) as [l0 Hl0].
    unfold add_columns in Hl0. simpl in Hl0.
    assert (G : exists l, fold_left
                 (fun acc k => if mem k acc then acc else acc ++ [k])
                 (Dict.keys rest) ["file"] = "file" :: l).
    { clear. generalize (Dict.keys rest). intro ks.
      assert (forall acc, exists l,
                 fold_left (fun acc k => if mem k acc then acc else acc ++ [k])
                           ks acc = acc ++ l) as G.
      { induction ks as [|k ks IH]; intro acc; simpl.
        - exists []. now rewrite app_nil_r.
        - destruct (mem k acc); [apply IH|].
          destruct (IH (acc ++ [k])) as [l ->]. exists (k :: l).
          now rewrite <- app_assoc. }
      destruct (G ["file"]) as [l ->]. exists l. reflexivity. }
    destruct G as [l ->].
    destruct (fold_add_columns_extends results ("file" :: l)) as [l2 ->].
    reflexivity.
Qed.

Lemma merge_rows_cons i j lrows r rrows :
  List.length (merge_rows i j lrows (r :: rrows)) =
  (List.length (List.filter
                  (fun l => cell_eqb (nth i l None) (nth j r None)) lrows)
   + List.length (merge_rows i j lrows rrows))%nat.
Proof.
  unfold merge_rows, cell in *.
  induction lrows as [|l lrows IH]; [reflexivity|].
  simpl in *. rewrite !length_app, !length_map.
  destruct (cell_eqb (nth i l None) (nth j r None)); simpl; lia.
Qed.

Lemma filter_unique_key i k (lrows : list (list cell)) :
  NoDup (map (fun l => nth i l None) lrows) ->
  (List.length (List.filter (fun l => cell_eqb (nth i l None) k) lrows) <= 1)%nat.
Proof.
  unfold cell in *.
  induction lrows as [|l lrows IH]; simpl; intro H; [lia|].
  inversion H as [|? ? Hnin Hnd]; subst.
  destruct (cell_eqb (nth i l None) k) eqn:E; [|auto].
  apply cell_eqb_eq in E. simpl.
  assert (Hnil : List.filter (fun l0 => cell_eqb (nth i l0 None) k) lrows = []).
  { clear - Hnin E. induction lrows as [|x lrows IH]; simpl; auto.
    destruct (cell_eqb (nth i x None) k) eqn:Ex.
    - apply cell_eqb_eq in Ex. exfalso. apply Hnin. simpl. left.
      transitivity k; [exact Ex | symmetry; exact E].
    - apply IH. intro Hin. apply Hnin. now right. }
  rewrite Hnil. simpl. lia.
Qed.

Lemma merge_rows_length i j lrows rrows :
  NoDup (map (fun l => nth i l None) lrows) ->
  (List.length (merge_rows i j lrows rrows) <= List.length rrows)%nat.
Proof.
  intro Hnd. induction rrows as [|r rrows IH].
  - unfold merge_rows. induction lrows as [|l lrows IHl]; simpl; auto.
    apply IHl. now inversion Hnd.
  - rewrite merge_rows_cons. simpl.
    pose proof (filter_unique_key i (nth j r None) lrows Hnd). lia.
Qed.

(** X18.  When no two rows of the metadata have the same 'file' value,
    the join does not multiply rows: the final table has at most one row
    per record. *)
Theorem unique_metadata_keys_do_not_multiply_rows self results meta out :
  Batch._additional_data self = Some meta ->
  NoDup (column_values meta "file") ->
  Batch._construct_dataframe self results = Ok out ->
  (List.length (rows out) <= List.length results)%nat.
Proof.
  intros Hmeta Hnd. unfold Batch._construct_dataframe. rewrite Hmeta.
  unfold merge.
  destruct (index_of "file" (columns meta)) as [i|] eqn:Hi; [|discriminate].
  destruct (index_of "file" (columns (DataFrame_of_records results)))
    as [j|]; [|discriminate].
  intros [= <-]. cbn [rows].
  unfold column_values, cell_at in Hnd. rewrite Hi in Hnd.
  transitivity (List.length (rows (DataFrame_of_records results))).
  - now apply merge_rows_length.
  - simpl. now rewrite length_map.
Qed.

End AssemblerProperties.

(* ------------------------------------------------------------------ *)
(** * Further properties of the paths *)

Section PathProperties.

Lemma string_of_list_ascii_app l1 l2 :
  string_of_list_ascii (l1 ++ l2) =
  (string_of_list_ascii l1 ++ string_of_list_ascii l2)%string.
Proof. induction l1 as [|c l1 IH]; simpl; auto. now rewrite IH. Qed.

Lemma split_slash_at_separator a : forall cur b,
  split_slash cur (a ++ String "/" b) = split_slash cur a ++ split_slash [] b.
Proof.
  induction a as [|c a IH]; intros cur b; simpl; auto.
  destruct (Ascii.eqb c "/"); simpl; now rewrite IH.
Qed.

Lemma split_slash_component s : forall cur,
  no_separator s ->
  split_slash cur s = [(string_of_list_ascii (rev cur) ++ s)%string].
Proof.
  unfold no_separator.
  induction s as [|c s IH]; intros cur H; simpl.
  - f_equal. clear. induction (string_of_list_ascii (rev cur)); simpl; congruence.
  - simpl in H. destruct (Ascii.eqb c "/") eqn:E.
    + apply Ascii.eqb_eq in E. subst. tauto.
    + rewrite IH by tauto. simpl. rewrite string_of_list_ascii_app. simpl.
      f_equal. clear. induction (string_of_list_ascii (rev cur)); simpl; congruence.
Qed.

(** X19.  The name of the path built from a string that ends in a
    separator and a component is that component; so is the name of the
    path built from the component alone.  The component is any string
    without a separator other than the empty string and the dot. *)
Theorem name_of_path_is_last_component dir base :
  no_separator base -> base <> "" -> base <> "." ->
  Path_name (Path_of_string (dir ++ String "/" base)) = base /\
  Path_name (Path_of_string base) = base.
Proof.
  intros Hsep He Hd.
  assert (Hkeep : negb (String.eqb base "" || String.eqb base ".") = true).
  { apply String.eqb_neq in He, Hd. now rewrite He, Hd. }
  unfold Path_name, Path_of_string. cbn [path_parts]. split.
  - rewrite split_slash_at_separator, filter_app.
    rewrite (split_slash_component [] Hsep). cbn [rev string_of_list_ascii].
    change ("" ++ base)%string with base.
    cbn [List.filter]. rewrite Hkeep. apply last_last.
  - rewrite (split_slash_component [] Hsep). cbn [rev string_of_list_ascii].
    change ("" ++ base)%string with base.
    cbn [List.filter]. rewrite Hkeep. reflexivity.
Qed.

End PathProperties.


(* ------------------------------------------------------------------ *)
(** * Runs of the further properties on the small Surface class *)

Section DemoProperties.
Import Demo.

Lemma task_error_kinds_witness :
  let e := BatchError (no_labels_message "pair") in
  _task a_ext [] [default_parameter "pair"] [] = (Err e, [EvLoad a_ext]) /\
  ((exists cls msg, e = Raised cls msg) \/
   (exists ident,
       (In ident (map op_identifier []) \/
        In ident (map identifier [default_parameter "pair"])) /\
       Surface_method ident = None /\
       e = AttributeError (no_attribute "Surface" ident)) \/
   (exists p, In p [default_parameter "pair"] /\
              e = BatchError (no_labels_message (identifier p))) \/
   e = BatchError label_count_message).
Proof.
  split; [reflexivity|].
  exact (@task_error_kinds surface a_ext [] [default_parameter "pair"]
           [] _ _ eq_refl).
Defined.

Lemma task_record_starts_with_file_witness :
  exists v rest,
    [("file", PInt 7)] = ("file", v) :: rest.
Proof.
  exact (@task_record_starts_with_file surface a_ext []
           [default_parameter "file"] [] _ _ eq_refl).
Defined.

Lemma scalar_valued_Sa_Sq :
  scalar_valued [default_parameter "Sa"; default_parameter "Sq"].
Proof.
  intros p m a k s v s' [<- | [<- | []]] Hm Hc;
    simpl in Hm; injection Hm as <-; simpl in Hc; injection Hc as <- _;
    reflexivity.
Defined.

Lemma task_record_of_scalar_parameters_witness :
  exists values,
    List.length values = 2%nat /\
    [("file", PStr "a.ext"); ("Sa", PInt 5); ("Sq", PInt 25)]
    = ("file", PStr "a.ext") :: combine ["Sa"; "Sq"] values.
Proof.
  apply (@task_record_of_scalar_parameters surface a_ext []
           [default_parameter "Sa"; default_parameter "Sq"] [] _ _ eq_refl
           scalar_valued_Sa_Sq).
  repeat constructor; simpl; intuition discriminate.
Defined.

Lemma sequential_dispatch_fails_fast_witness :
  Batch._disptach_tasks with_broken_file false [] =
  (Err (Raised "ValueError" "unsupported file"),
   [EvLoad (Path_of_string "a.ext"); EvLoad (Path_of_string "broken.ext")]).
Proof.
  apply (@sequential_dispatch_fails_fast surface environment with_broken_file
           [Path_of_string "a.ext"] (Path_of_string "broken.ext")
           [Path_of_string "c.ext"] [] _ eq_refl).
  - constructor; [eexists; reflexivity | constructor].
  - reflexivity.
Defined.

Lemma parallel_dispatch_permutes_witness :
  exists results' t2,
    Batch._disptach_tasks batch true [] = (Ok results', t2) /\
    Permutation records results'.
Proof.
  exact (@parallel_dispatch_permutes surface environment batch [] records _
           eq_refl).
Defined.

Lemma execute_file_accesses_witness :
  exists df results,
    Batch.execute batch false (Some "out.xlsx") []
    = (Ok df, map EvLoad (Batch._filepaths batch) ++ [EvWriteExcel "out.xlsx"]) /\
    Batch._construct_dataframe batch results = Ok df.
Proof.
  destruct (@execute_file_accesses surface environment batch
              (Some "out.xlsx") [] _ _ eq_refl) as [results [_ [Hc _]]].
  eexists. exists results. split; [reflexivity | exact Hc].
Defined.

Lemma dynamic_call_is_bulk_registration_witness :
  exists f,
    Batch.__getattr__ idle "Sa" = Ok (Batch.AttrMethod f) /\
    f [] Dict.empty idle = Batch.roughness_parameters (Some [Batch.EStr "Sa"]) idle.
Proof.
  destruct (@dynamic_call_is_bulk_registration surface idle "Sa" eq_refl
              (or_introl eq_refl)) as [f [H1 [H2 _]]].
  exists f. split; [exact H1 | exact H2].
Defined.

Lemma execute_without_files_and_with_metadata_witness :
  Batch.execute without_files true (Some "out.xlsx") []
  = (Err (KeyError "file"), []).
Proof.
  apply (@execute_without_files_and_with_metadata surface environment
           without_files meta true (Some "out.xlsx") [] eq_refl eq_refl).
  left. discriminate.
Defined.

Lemma construct_dataframe_without_metadata_witness :
  exists df,
    Batch._construct_dataframe idle records = Ok df /\
    List.length (rows df) = 3%nat.
Proof.
  destruct (@construct_dataframe_without_metadata idle records eq_refl)
    as [df [H1 [H2 _]]].
  exists df. split; [exact H1 | exact H2].
Defined.

Lemma unique_metadata_keys_do_not_multiply_rows_witness :
  exists out,
    Batch._construct_dataframe batch records = Ok out /\
    (List.length (rows out) <= 3)%nat.
Proof.
  eexists. split; [reflexivity|].
  apply (@unique_metadata_keys_do_not_multiply_rows batch records meta _
           eq_refl); [|reflexivity].
  repeat constructor; simpl; intuition discriminate.
Defined.

Lemma name_of_path_is_last_component_witness :
  Path_name (Path_of_string "data/run 1/a.ext") = "a.ext".
Proof.
  apply (proj1 (@name_of_path_is_last_component "data/run 1" "a.ext"
                  ltac:(unfold no_separator; simpl; intuition discriminate)
                  ltac:(discriminate) ltac:(discriminate))).
Defined.

Lemma execute_without_metadata_one_row_per_file_witness :
  exists df t',
    Batch.execute (Batch.roughness_parameters None idle) true None []
    = (Ok df, t') /\
    List.length (rows df) = 3%nat /\
    hd_error (columns df) = Some "file".
Proof.
  assert (Hn : Batch._additional_data (Batch.roughness_parameters None idle)
               = None) by reflexivity.
  assert (E : exists df t',
             Batch.execute (Batch.roughness_parameters None idle) true None []
             = (Ok df, t')) by (eexists; eexists; reflexivity).
  destruct E as [df [t' E]]. exists df, t'. split; [exact E|].
  destruct (@execute_without_metadata_one_row_per_file surface environment
              (Batch.roughness_parameters None idle) true None [] df t'
              Hn E) as [H1 [_ H3]].
  split; [exact H1 | apply H3; discriminate].
Defined.

End DemoProperties.
